(** * Enfuse exposure weight functions: factory, dump and range check

    A shallow embedding of [src/exposure_weight.cc].  The file selects one
    of five built-in exposure weight curves by (case-insensitive) name or,
    when the build has a dynamic loader, wraps a user-defined curve that a
    shared object exposes under a symbol; it also dumps a curve over an
    equidistant grid and checks that all sampled weights lie in [0, 1).

    - [double] is IEEE-754 binary64: Rocq's primitive [float].
    - [int] is [Z]; the loops only ever hold values in [0, n].
    - Heap objects are named by allocation identities that are never
      reused, so "the object the first call produced" stays meaningful
      after it has been deleted.
    - Everything observable (stream output, deletes, allocations, calls
      into a shared object, [exit]) is appended to a trace, oldest first.
    - What the file takes from headers that are not part of the sources
      ([command], the two preprocessor switches, [DynamicLoader], the
      closed forms of the built-in curves, the text of a [double]) is a
      variable of the section that holds the translation unit. *)

From Stdlib Require Import ZArith Floats Uint63 String Ascii.
From stdpp Require Import base option list gmap strings pretty.

Local Open Scope string_scope.
Local Open Scope Z_scope.

(** ** Characters and strings *)

Definition dquote : string := String "034"%char EmptyString.
Definition endl : string := String "010"%char EmptyString.

Module enblend.

(** Modelled from the spec: [enblend::to_lower] lives in [global.h], which
    is not part of the sources.  The spec says the name is normalised to
    lower case; this is the per-character [tolower] of the C locale, which
    maps 'A'..'Z' to 'a'..'z' and leaves every other character alone. *)
Definition tolower (c : ascii) : ascii :=
  let n := N_of_ascii c in
  if ((65 <=? n) && (n <=? 90))%N then ascii_of_N (n + 32) else c.

(** [to_lower] rewrites the string in place, character by character. *)
Fixpoint to_lower (a_string : string) : string :=
  match a_string with
  | EmptyString => EmptyString
  | String c rest => String (tolower c) (to_lower rest)
  end.

End enblend.

(** [needle] occurs somewhere in [haystack]. *)
Fixpoint mentions (needle haystack : string) : bool :=
  String.prefix needle haystack
  || match haystack with
     | EmptyString => false
     | String _ rest => mentions needle rest
     end.

(** ** Objects *)

Definition argument_list_t := list string.

(** What a throw-expression can raise here: [ExposureWeight::error], the
    only type the factory catches, or anything else (for instance what the
    dynamic loader raises when a library or a symbol is missing). *)
Inductive exception :=
| ExposureWeight_error (what : string)
| other_exception (what : string).

(** The [ExposureWeight] object a shared object exposes under a symbol,
    seen through the two virtual methods this file calls on it:
    [weight], and [initialize], which either throws or leaves the object
    in a new state. *)
Inductive user_weight_function :=
| UserWeightFunction
    (weight : float -> float)
    (initialize : float -> float -> argument_list_t -> initialize_result)
with initialize_result :=
| InitializeThrows (e : exception)
| Initialized (function : user_weight_function).

Definition uf_weight (f : user_weight_function) : float -> float :=
  match f with UserWeightFunction weight _ => weight end.

Definition uf_initialize (f : user_weight_function)
  : float -> float -> argument_list_t -> initialize_result :=
  match f with UserWeightFunction _ initialize => initialize end.

(** An opened [DynamicLoader]: [resolve<ExposureWeight*>(symbol_name)]
    throws or yields the object behind the symbol. *)
Record DynamicLoader_t := {
  dl_resolve : string -> exception + user_weight_function
}.

(** The classes this file instantiates.  The five built-in curves carry
    the two constructor arguments; [DynamicExposureWeight] carries its
    members, [function] standing for the object it points to.  Each
    wrapper has its own copy of that object here: that two live wrappers
    of one symbol share it is not modelled, so nothing below speaks of
    the loaded function of a wrapper other than the one a call makes. *)
Inductive ExposureWeight :=
| Gaussian (y_optimum width : float)
| Lorentzian (y_optimum width : float)
| HalfSinusodial (y_optimum width : float)
| FullSinusodial (y_optimum width : float)
| Bisquare (y_optimum width : float)
| DynamicExposureWeight (y_optimum width : float)
    (library symbol : string)
    (dynamic_loader : DynamicLoader_t) (function : user_weight_function).

(** ** Process state and observable events *)

Inductive event :=
| EvDelete (p : option nat)
| EvNew (p : nat)
| EvCout (text : string)
| EvCerr (text : string)
| EvLoad (library_name : string)
| EvResolve (library_name symbol_name : string)
| EvInitialize (symbol_name : string) (y_optimum width : float)
    (argument_list : argument_list_t)
| EvExit (status : Z).

Record state := {
  heap : gmap nat ExposureWeight;
  next : nat;
  ExposureWeightFunction : option nat;
  trace : list event
}.

Definition log (e : event) (s : state) : state :=
  {| heap := heap s; next := next s;
     ExposureWeightFunction := ExposureWeightFunction s;
     trace := trace s ++ [e] |}.

Definition with_heap (h : gmap nat ExposureWeight) (s : state) : state :=
  {| heap := h; next := next s;
     ExposureWeightFunction := ExposureWeightFunction s;
     trace := trace s |}.

(** The caller's [ExposureWeightFunction = make_weight_function(...)]. *)
Definition install (p : nat) (s : state) : state :=
  {| heap := heap s; next := next s;
     ExposureWeightFunction := Some p;
     trace := trace s |}.

(** ** A state monad with the ways a call can fail to return *)

Inductive outcome (A : Type) :=
| Returned (a : A)
| Exited (status : Z)
| Thrown (e : exception)
| Aborted
| Undefined.
Arguments Returned {A} a.
Arguments Exited {A} status.
Arguments Thrown {A} e.
Arguments Aborted {A}.
Arguments Undefined {A}.

Definition M (A : Type) : Type := state -> outcome A * state.

Definition ret {A} (a : A) : M A := fun s => (Returned a, s).

Definition bind {A B} (m : M A) (k : A -> M B) : M B := fun s =>
  match m s with
  | (Returned a, s') => k a s'
  | (Exited n, s') => (Exited n, s')
  | (Thrown e, s') => (Thrown e, s')
  | (Aborted, s') => (Aborted, s')
  | (Undefined, s') => (Undefined, s')
  end.

Declare Scope cpp_scope.
Delimit Scope cpp_scope with cpp.
Notation "x <- m ;; k" := (bind m (fun x => k))
  (at level 100, m at next level, right associativity) : cpp_scope.
Notation "m ;; k" := (bind m (fun _ => k))
  (at level 100, right associativity) : cpp_scope.
Local Open Scope cpp_scope.

Definition emit (e : event) : M unit := fun s => (Returned tt, log e s).
Definition cout (text : string) : M unit := emit (EvCout text).
Definition cerr (text : string) : M unit := emit (EvCerr text).

(** [exit(status)]: the process ends; nothing after it runs. *)
Definition exit {A} (status : Z) : M A := fun s =>
  (Exited status, log (EvExit status) s).

Definition throw {A} (e : exception) : M A := fun s => (Thrown e, s).

(** Undefined behaviour: the model stops here. *)
Definition undefined {A} : M A := fun s => (Undefined, s).

Definition lift_throwing {A} (r : exception + A) : M A :=
  match r with
  | inl e => throw e
  | inr a => ret a
  end.

(** [try { body } catch (ExposureWeight::error& exception) { handler }]:
    every other exception keeps propagating. *)
Definition try_catch_error {A} (body : M A) (handler : string -> M A) : M A :=
  fun s =>
    match body s with
    | (Thrown (ExposureWeight_error what), s') => handler what s'
    | r => r
    end.

(** The state once [new T(...)] has completed: the object lives under a
    fresh identity. *)
Definition alloc (object : ExposureWeight) (s : state) : state :=
  {| heap := <[next s := object]> (heap s); next := S (next s);
     ExposureWeightFunction := ExposureWeightFunction s;
     trace := trace s ++ [EvNew (next s)] |}.

Definition new (object : ExposureWeight) : M nat := fun s =>
  (Returned (next s), alloc object s).

(** The state once the live object [l] has been destroyed. *)
Definition free (l : nat) (s : state) : state :=
  log (EvDelete (Some l)) (with_heap (delete l (heap s)) s).

(** [delete p]: nothing for a null pointer, the end of a live object's
    lifetime, undefined behaviour for a pointer to a dead object. *)
Definition delete_ptr (p : option nat) : M unit := fun s =>
  match p with
  | None => (Returned tt, log (EvDelete None) s)
  | Some l =>
      match heap s !! l with
      | Some _ => (Returned tt, free l s)
      | None => undefined s
      end
  end.

Definition load (p : nat) : M ExposureWeight := fun s =>
  match heap s !! p with
  | Some object => (Returned object, s)
  | None => undefined s
  end.

Definition store (p : nat) (object : ExposureWeight) : M unit := fun s =>
  (Returned tt, with_heap (<[p := object]> (heap s)) s).

Definition read_ExposureWeightFunction : M (option nat) := fun s =>
  (Returned (ExposureWeightFunction s), s).

(** ** Numbers *)

(** [static_cast<double>(i)] for an [int]: exact, every 32-bit integer
    being representable in binary64. *)
Definition double_of_int (i : Z) : float :=
  if 0 <=? i then PrimFloat.of_uint63 (Uint63.of_Z i)
  else PrimFloat.opp (PrimFloat.of_uint63 (Uint63.of_Z (- i))).

(** [for (int i = first; i < n; ++i) body], threading the local variables
    the body updates.  [fuel] bounds the number of iterations; the callers
    pass [Z.to_nat n], which is exactly the number the loop makes. *)
Fixpoint for_loop {A} (fuel : nat) (i n : Z) (body : Z -> A -> M A) (locals : A)
  : M A :=
  match fuel with
  | O => ret locals
  | S fuel' =>
      if i <? n
      then locals' <- body i locals ;; for_loop fuel' (i + 1) n body locals'
      else ret locals
  end.

(** ** Vocabulary of the specification *)

(** The alias table of the specification, in the order the factory tests
    the spellings: a lower-case spelling and the class it stands for. *)
Definition alias_table : list (string * (float -> float -> ExposureWeight)) :=
  [ ("gauss", Gaussian); ("gaussian", Gaussian);
    ("lorentz", Lorentzian); ("lorentzian", Lorentzian);
    ("halfsine", HalfSinusodial); ("half-sine", HalfSinusodial);
    ("fullsine", FullSinusodial); ("full-sine", FullSinusodial);
    ("bisquare", Bisquare); ("bi-square", Bisquare) ].

Definition lookup_alias (lowered : string)
  : option (float -> float -> ExposureWeight) :=
  snd <$> List.find (fun entry => String.eqb lowered (fst entry)) alias_table.

(** The global pointer is null or points to a live object, so that
    deleting it is defined. *)
Definition slot_ok (s : state) : Prop :=
  match ExposureWeightFunction s with
  | None => True
  | Some p => is_Some (heap s !! p)
  end.

(** Exclusive ownership: the only live weight function, if any, is the one
    the global pointer holds. *)
Definition exclusive (s : state) : Prop :=
  match ExposureWeightFunction s with
  | None => heap s = ∅
  | Some p => ∃ object, heap s = {[ p := object ]}
  end.

(** The state right after [delete ExposureWeightFunction]. *)
Definition after_delete (s : state) : state :=
  match ExposureWeightFunction s with
  | None => log (EvDelete None) s
  | Some p => free p s
  end.

(** Identities are handed out in increasing order: every live object has
    one below [next]. *)
Definition ids_fresh (s : state) : Prop :=
  forall l, is_Some (heap s !! l) -> (l < next s)%nat.

Definition log_all (evs : list event) (s : state) : state :=
  {| heap := heap s; next := next s;
     ExposureWeightFunction := ExposureWeightFunction s;
     trace := trace s ++ evs |}.

(** The number of live weight functions after each event of a run that
    starts with [live] of them. *)
Fixpoint live_counts (live : nat) (evs : list event) : list nat :=
  match evs with
  | [] => []
  | e :: evs' =>
      let live' :=
        match e with
        | EvNew _ => S live
        | EvDelete (Some _) => Nat.pred live
        | _ => live
        end in
      live' :: live_counts live' evs'
  end.

Definition is_delete (e : event) : bool :=
  match e with EvDelete _ => true | _ => false end.

Definition is_construction (e : event) : bool :=
  match e with
  | EvNew _ | EvLoad _ | EvResolve _ _ | EvInitialize _ _ _ _ => true
  | _ => false
  end.

(** Text written to the error stream, in order. *)
Definition cerr_text (evs : list event) : list string :=
  omap (fun e => match e with EvCerr text => Some text | _ => None end) evs.

(** A report that no symbol name was supplied has to speak of the symbol. *)
Definition reports_missing_symbol (s : state) : Prop :=
  exists text, text ∈ cerr_text (trace s) /\ mentions "symbol" text = true.

(** [INT_MAX] of a 32-bit [int], the type of [n] and [i]. *)
Definition INT_MAX : Z := 2147483647.

(** The grid point of the specification, y = i / (n - 1), in binary64:
    [i] and [n - 1] as binary64 numbers (the rounding of the integer,
    which is the integer itself below 2^53) and their IEEE-754 quotient,
    rounded to nearest even.  It is written with the Standard Library's
    specification of binary64 arithmetic on [Z], not with the primitive
    operations the code is embedded with. *)
Definition spec_grid_point (n i : Z) : float :=
  SF2Prim
    (SFdiv prec emax
       (binary_normalize prec emax i 0 false)
       (binary_normalize prec emax (n - 1) 0 false)).

(** The fault count of the specification: the number of indices [i] in
    [0, n) whose sample [w = evaluate (i / (n - 1))] has [w < 0] or
    [w >= 1]. *)
Definition spec_fault_count (evaluate : float -> float) (n : Z) : Z :=
  Z.of_nat
    (length
       (List.filter
          (fun i =>
             let w := evaluate (spec_grid_point n i) in
             PrimFloat.ltb w 0 || PrimFloat.leb 1 w)
          (seqZ 0 n))).

(** One of the five classes without other state than its two numbers. *)
Definition is_built_in (object : ExposureWeight) : bool :=
  match object with
  | DynamicExposureWeight _ _ _ _ _ _ => false
  | _ => true
  end.

(** [s'] continues [b]: the global pointer is the same, every identity
    handed out before [b] has kept its object (or its death), and the
    identities are still fresh. *)
Definition continues (b s' : state) : Prop :=
  ExposureWeightFunction s' = ExposureWeightFunction b
  /\ (forall l, (l < next b)%nat -> heap s' !! l = heap b !! l)
  /\ ids_fresh s'
  /\ (next b <= next s')%nat.

(** An event of the fatal end: a line on the error stream, or [exit]. *)
Definition is_report (e : event) : bool :=
  match e with EvCerr _ | EvExit _ => true | _ => false end.

(** The global pointer holds the address of a dead object. *)
Definition dangling (s : state) : Prop :=
  exists p, ExposureWeightFunction s = Some p /\ heap s !! p = None.

(** ** Concrete inputs *)

Definition empty_state : state :=
  {| heap := ∅; next := 0; ExposureWeightFunction := None; trace := [] |}.

(** A Gaussian is active. *)
Definition active_state : state :=
  {| heap := {[ 0%nat := Gaussian 0.5 0.25 ]}; next := 1;
     ExposureWeightFunction := Some 0%nat; trace := [] |}.

Definition constant_function (w : float) : user_weight_function :=
  UserWeightFunction (fun _ => w)
    (fun _ _ _ => InitializeThrows (other_exception "initialized twice")).

(** A user-defined function that rejects every configuration. *)
Definition refusing_function : user_weight_function :=
  UserWeightFunction (fun _ => 0%float)
    (fun _ _ _ => InitializeThrows (ExposureWeight_error "bad width")).

(** A user-defined function that accepts every configuration. *)
Definition accepting_function : user_weight_function :=
  UserWeightFunction (fun _ => 0%float)
    (fun _ _ _ => Initialized (constant_function 0.5)).

Definition sample_library : DynamicLoader_t :=
  {| dl_resolve := fun symbol_name =>
       if String.eqb symbol_name "refusing" then inr refusing_function
       else if String.eqb symbol_name "accepting" then inr accepting_function
       else inl (other_exception "undefined symbol") |}.

Definition sample_DynamicLoader (library_name : string)
  : exception + DynamicLoader_t :=
  if String.eqb library_name "curves.so" then inr sample_library
  else inl (other_exception "cannot open shared object").

(** A defective curve is active: it yields 1.5 everywhere. *)
Definition defective_state : state :=
  {| heap := {[ 0%nat := DynamicExposureWeight 0.5 0.25 "curves.so" "stub"
                           sample_library (constant_function 1.5) ]};
     next := 1; ExposureWeightFunction := Some 0%nat; trace := [] |}.

Definition sample_weight (object : ExposureWeight) (y : float) : float :=
  0.5%float.

Definition sample_show_double (x : float) : string := "#".

(** A loader for the error paths: one library cannot be opened for a
    reason the factory reports, another one holds a function that fails
    in [initialize] with something the factory does not catch. *)
Definition second_library : DynamicLoader_t :=
  {| dl_resolve := fun symbol_name =>
       if String.eqb symbol_name "constant" then inr (constant_function 0.5)
       else if String.eqb symbol_name "accepting" then inr accepting_function
       else if String.eqb symbol_name "hidden"
       then inl (ExposureWeight_error "symbol is not a weight function")
       else inl (other_exception "undefined symbol") |}.

Definition second_DynamicLoader (library_name : string)
  : exception + DynamicLoader_t :=
  if String.eqb library_name "extra.so" then inr second_library
  else if String.eqb library_name "broken.so"
  then inl (ExposureWeight_error "wrong interface version")
  else inl (other_exception "cannot open shared object").

(** The active curve yields NaN everywhere. *)
Definition nan_state : state :=
  {| heap := {[ 0%nat := DynamicExposureWeight 0.5 0.25 "extra.so" "nan"
                           second_library (constant_function PrimFloat.nan) ]};
     next := 1; ExposureWeightFunction := Some 0%nat; trace := [] |}.

(** The global pointer was deleted and not reset. *)
Definition dangling_state : state :=
  {| heap := ∅; next := 1; ExposureWeightFunction := Some 0%nat;
     trace := [EvDelete (Some 0%nat)] |}.

(** A Gaussian is active and a Lorentzian lives beside it. *)
Definition crowded_state : state :=
  {| heap := <[ 1%nat := Lorentzian 0.5 0.25 ]> {[ 0%nat := Gaussian 0.5 0.25 ]};
     next := 2; ExposureWeightFunction := Some 0%nat; trace := [] |}.

(** ** The translation unit *)

Module exposure_weight.
Section ExposureWeightCc.

(** [extern const std::string command]. *)
Variable command : string.

(** Whether [dynamic_loader.h] defines [HAVE_DYNAMICLOADER_IMPL], and
    whether [NDEBUG] disables [assert]. *)
Variable HAVE_DYNAMICLOADER_IMPL : bool.
Variable NDEBUG : bool.

(** The constructor [DynamicLoader(library_name)] of [dynamic_loader.h]:
    it throws or yields the opened library. *)
Variable DynamicLoader : string -> exception + DynamicLoader_t.

(** The closed forms of the built-in curves, from [exposure_weight.h]. *)
Variable built_in_weight : ExposureWeight -> float -> float.

(** [operator<<] for a [double] on a stream in its default format. *)
Variable show_double : float -> string.

Definition show_int (i : Z) : string := pretty i.

Definition assert (condition : bool) : M unit := fun s =>
  if NDEBUG || condition then (Returned tt, s) else (Aborted, s).

(** The virtual [weight(y)]. *)
Definition weight (object : ExposureWeight) (y : float) : float :=
  match object with
  | DynamicExposureWeight _ _ _ _ _ function => uf_weight function y
  | _ => built_in_weight object y
  end.

(** [p->weight(y)]. *)
Definition call_weight (p : nat) (y : float) : M float :=
  object <- load p ;; ret (weight object y).

(** [new DynamicExposureWeight(library_name, symbol_name)]: the base is
    built with (0.5, 0.25), then the members in declaration order. *)
Definition new_DynamicExposureWeight (library_name symbol_name : string)
  : M nat :=
  emit (EvLoad library_name) ;;
  dynamic_loader <- lift_throwing (DynamicLoader library_name) ;;
  emit (EvResolve library_name symbol_name) ;;
  function <- lift_throwing (dl_resolve dynamic_loader symbol_name) ;;
  new (DynamicExposureWeight 0.5 0.25 library_name symbol_name
         dynamic_loader function).

(** [DynamicExposureWeight::initialize]; [this] points to an object of
    that class. *)
Definition DynamicExposureWeight_initialize (this : nat)
    (y_optimum width_parameter : float) (argument_list : argument_list_t)
  : M unit :=
  cout ("+ DynamicExposureWeight::initialize" +:+ endl) ;;
  object <- load this ;;
  match object with
  | DynamicExposureWeight y0 w0 library symbol dynamic_loader function =>
      emit (EvInitialize symbol y_optimum width_parameter argument_list) ;;
      match uf_initialize function y_optimum width_parameter argument_list with
      | InitializeThrows e => throw e
      | Initialized function' =>
          store this (DynamicExposureWeight y0 w0 library symbol
                        dynamic_loader function')
      end
  | _ => undefined
  end.

Definition make_dynamic_weight_function (name : string)
    (arguments : argument_list_t) (y_optimum width : float) : M nat :=
  match arguments with
  | [] =>
      cerr (command +:+ ": unknown built-in exposure weight function "
            +:+ dquote +:+ name +:+ dquote +:+ endl) ;;
      exit 1
  | symbol_name :: user_arguments =>
      weight_object <-
        try_catch_error
          (weight_object <- new_DynamicExposureWeight name symbol_name ;;
           DynamicExposureWeight_initialize weight_object
             y_optimum width user_arguments ;;
           ret weight_object)
          (fun what =>
             cerr (command +:+ ": user-defined weight function " +:+ dquote
                   +:+ symbol_name +:+ dquote +:+ " defined in shared object "
                   +:+ dquote +:+ name +:+ dquote +:+ " raised exception: "
                   +:+ what +:+ endl) ;;
             exit 1) ;;
      ret weight_object
  end.

Definition make_weight_function (name : string)
    (arguments : argument_list_t) (y_optimum width : float) : M nat :=
  p <- read_ExposureWeightFunction ;;
  delete_ptr p ;;
  let possible_built_in := enblend.to_lower name in
  if String.eqb possible_built_in "gauss"
     || String.eqb possible_built_in "gaussian"
  then new (Gaussian y_optimum width)
  else if String.eqb possible_built_in "lorentz"
          || String.eqb possible_built_in "lorentzian"
  then new (Lorentzian y_optimum width)
  else if String.eqb possible_built_in "halfsine"
          || String.eqb possible_built_in "half-sine"
  then new (HalfSinusodial y_optimum width)
  else if String.eqb possible_built_in "fullsine"
          || String.eqb possible_built_in "full-sine"
  then new (FullSinusodial y_optimum width)
  else if String.eqb possible_built_in "bisquare"
          || String.eqb possible_built_in "bi-square"
  then new (Bisquare y_optimum width)
  else if HAVE_DYNAMICLOADER_IMPL
  then make_dynamic_weight_function name arguments y_optimum width
  else
    cerr (command +:+ ": unknown built-in exposure weight function "
          +:+ dquote +:+ name +:+ dquote +:+ endl
          +:+ command
          +:+ ": note: this binary has no support for dynamic loading of"
          +:+ endl
          +:+ command +:+ ": note: exposure weight functions" +:+ endl) ;;
    exit 1.

(** The grid point [static_cast<double>(i) / static_cast<double>(n - 1)]. *)
Definition grid (n i : Z) : float :=
  PrimFloat.div (double_of_int i) (double_of_int (n - 1)).

Definition dump_line (i : Z) (x w : float) : string :=
  show_int i +:+ " " +:+ show_double x +:+ " " +:+ show_double w +:+ endl.

Definition dump_weight_function (weight_function : nat) (n : Z) : M unit :=
  assert (2 <=? n) ;;
  for_loop (Z.to_nat n) 0 n
    (fun i _ =>
       let x := grid n i in
       w <- call_weight weight_function x ;;
       cout (dump_line i x w))
    tt.

(** [w < 0.0 || w >= 1.0]. *)
Definition is_fault (w : float) : bool :=
  PrimFloat.ltb w 0 || PrimFloat.leb 1 w.

(** The counter has the integer type [omp::atomic_t] of [openmp_def.h]; it
    never leaves [0, n] (lemma [fault_count_bounds]), so it is a [Z] here.
    The iterations are taken in increasing order of [i]; under OpenMP they
    may be taken in any order, which does not change the count (lemma
    [faults_on_Permutation]). *)
Definition check_weight_function (weight_function : nat) (n : Z) : M bool :=
  assert (2 <=? n) ;;
  number_of_faults <-
    for_loop (Z.to_nat n) 0 n
      (fun i number_of_faults =>
         let y := grid n i in
         w <- call_weight weight_function y ;;
         if is_fault w then ret (number_of_faults + 1)
         else ret number_of_faults)
      0 ;;
  ret (number_of_faults =? 0).

(** ** The diagnostics, as the specification talks about them *)

(** What the dynamic path writes when no symbol name was given. *)
Definition unknown_text (name : string) : string :=
  command +:+ ": unknown built-in exposure weight function "
  +:+ dquote +:+ name +:+ dquote +:+ endl.

(** What a build without dynamic loader writes for an unknown name. *)
Definition unknown_no_loader_text (name : string) : string :=
  command +:+ ": unknown built-in exposure weight function "
  +:+ dquote +:+ name +:+ dquote +:+ endl
  +:+ command
  +:+ ": note: this binary has no support for dynamic loading of"
  +:+ endl
  +:+ command +:+ ": note: exposure weight functions" +:+ endl.

(** What the factory writes when a user-defined function raises. *)
Definition raised_text (symbol_name name what : string) : string :=
  command +:+ ": user-defined weight function " +:+ dquote
  +:+ symbol_name +:+ dquote +:+ " defined in shared object "
  +:+ dquote +:+ name +:+ dquote +:+ " raised exception: "
  +:+ what +:+ endl.

(** The fatal end of a call: the report, then [exit(1)]. *)
Definition fatal (text : string) (s : state) : outcome nat * state :=
  (Exited 1, log (EvExit 1) (log (EvCerr text) s)).

(** The state in which the loaded function's [initialize] is entered: the
    library is open, the symbol resolved, the wrapper allocated, and the
    wrapper's own [initialize] has announced itself. *)
Definition entering_initialize (name symbol_name : string)
    (dynamic_loader : DynamicLoader_t) (function : user_weight_function)
    (y_optimum width : float) (user_arguments : argument_list_t)
    (s : state) : state :=
  log (EvInitialize symbol_name y_optimum width user_arguments)
    (log (EvCout ("+ DynamicExposureWeight::initialize" +:+ endl))
       (alloc (DynamicExposureWeight 0.5 0.25 name symbol_name
                 dynamic_loader function)
          (log (EvResolve name symbol_name) (log (EvLoad name) s)))).

(** The faults among the samples at the given grid indices. *)
Definition faults_on (curve : ExposureWeight) (n : Z) (indices : list Z) : Z :=
  Z.of_nat
    (length
       (List.filter (fun i => is_fault (weight curve (grid n i))) indices)).

(** The fault count over the whole grid of [n] points. *)
Definition fault_count (curve : ExposureWeight) (n : Z) : Z :=
  faults_on curve n (seqZ 0 n).

(** The lines a dump writes. *)
Definition dump_events (curve : ExposureWeight) (n : Z) : list event :=
  (fun i => EvCout (dump_line i (grid n i) (weight curve (grid n i))))
    <$> seqZ 0 n.

(** ** Facts about strings *)

Lemma prefix_nil (b : string) : String.prefix EmptyString b = true.
Proof. destruct b; reflexivity. Qed.

Lemma prefix_append (a b : string) : String.prefix a (a +:+ b) = true.
Proof.
  induction a as [|c a IH]; simpl.
  - apply prefix_nil.
  - destruct (ascii_dec c c); [exact IH | congruence].
Qed.

Lemma append_assoc (a b c : string) : (a +:+ b) +:+ c = a +:+ (b +:+ c).
Proof.
  induction a as [|x a IH]; [reflexivity|].
  change (String x ((a +:+ b) +:+ c) = String x (a +:+ (b +:+ c))).
  now f_equal.
Qed.

Lemma mentions_here (a b : string) : mentions a (a +:+ b) = true.
Proof.
  destruct a as [|c a]; simpl.
  - destruct b; simpl; now rewrite ?prefix_nil.
  - pose proof (prefix_append (String c a) b) as H. simpl in H.
    now rewrite H.
Qed.

Lemma mentions_quoted (name rest : string) :
  mentions (dquote +:+ name +:+ dquote) (dquote +:+ name +:+ dquote +:+ rest)
  = true.
Proof.
  replace (dquote +:+ name +:+ dquote +:+ rest)
    with ((dquote +:+ name +:+ dquote) +:+ rest)
    by now rewrite !append_assoc.
  apply mentions_here.
Qed.

Lemma mentions_skip (needle a b : string) :
  mentions needle b = true -> mentions needle (a +:+ b) = true.
Proof.
  intros H. induction a as [|c a IH]; simpl; [exact H|].
  rewrite IH. apply orb_true_r.
Qed.

Example to_lower_mixed_case :
  enblend.to_lower "Half-SINE" = "half-sine"
  /\ enblend.to_lower "curves_V2.so" = "curves_v2.so".
Proof. split; reflexivity. Qed.

(** ** Stepping through the factory *)

Lemma delete_slot s :
  slot_ok s ->
  delete_ptr (ExposureWeightFunction s) s = (Returned tt, after_delete s).
Proof.
  unfold slot_ok, delete_ptr, after_delete.
  destruct (ExposureWeightFunction s) as [p|]; [intros [object ->]|]; done.
Qed.

(** The if-chain of the factory is a lookup in the alias table. *)
Lemma make_weight_function_eq name arguments y_optimum width s :
  slot_ok s ->
  make_weight_function name arguments y_optimum width s =
  match lookup_alias (enblend.to_lower name) with
  | Some class => new (class y_optimum width) (after_delete s)
  | None =>
      if HAVE_DYNAMICLOADER_IMPL
      then make_dynamic_weight_function name arguments y_optimum width
             (after_delete s)
      else fatal (unknown_no_loader_text name) (after_delete s)
  end.
Proof.
  intros Hslot. unfold make_weight_function.
  unfold bind at 1. unfold read_ExposureWeightFunction at 1.
  unfold bind at 1. rewrite (delete_slot s Hslot).
  generalize (enblend.to_lower name) as lowered. intros lowered.
  unfold lookup_alias, alias_table. simpl.
  repeat (destruct (String.eqb lowered _); simpl; try reflexivity).
  destruct HAVE_DYNAMICLOADER_IMPL; reflexivity.
Qed.

Lemma make_dynamic_weight_function_nil name y_optimum width s :
  make_dynamic_weight_function name [] y_optimum width s
  = fatal (unknown_text name) s.
Proof. reflexivity. Qed.

Lemma next_after_delete s : next (after_delete s) = next s.
Proof. unfold after_delete. destruct (ExposureWeightFunction s); reflexivity. Qed.

Lemma slot_after_delete s :
  ExposureWeightFunction (after_delete s) = ExposureWeightFunction s.
Proof.
  unfold after_delete.
  destruct (ExposureWeightFunction s) eqn:Hslot; simpl; congruence.
Qed.

Lemma heap_after_delete s p :
  ExposureWeightFunction s = Some p -> heap (after_delete s) !! p = None.
Proof.
  unfold after_delete. intros ->. simpl. apply lookup_delete_eq.
Qed.

Lemma trace_after_delete s :
  trace (after_delete s)
  = (trace s ++ [EvDelete (ExposureWeightFunction s)])%list.
Proof. unfold after_delete. destruct (ExposureWeightFunction s); reflexivity. Qed.

(** ** Built-in names *)

(** C1.  If the lower-cased name is one of the ten spellings of the alias
    table, the factory returns a pointer to a freshly constructed object
    of the corresponding built-in class, built with (y_optimum, width);
    the whole result is the same for every argument list; and "GAUSS",
    "Gauss" and "gauss" all stand for the Gaussian class. *)
Theorem C1_built_in_aliases name class arguments y_optimum width s :
  lookup_alias (enblend.to_lower name) = Some class ->
  slot_ok s ->
  make_weight_function name arguments y_optimum width s
    = (Returned (next s), alloc (class y_optimum width) (after_delete s))
  /\ heap (alloc (class y_optimum width) (after_delete s)) !! next s
     = Some (class y_optimum width)
  /\ (forall arguments',
        make_weight_function name arguments' y_optimum width s
        = make_weight_function name arguments y_optimum width s)
  /\ (forall spelling,
        spelling ∈ ["GAUSS"; "Gauss"; "gauss"] ->
        make_weight_function spelling arguments y_optimum width s
        = (Returned (next s),
           alloc (Gaussian y_optimum width) (after_delete s))).
Proof.
  intros Halias Hslot. split; [|split; [|split]].
  - rewrite make_weight_function_eq, Halias by assumption.
    unfold new. now rewrite next_after_delete.
  - unfold alloc. simpl. rewrite next_after_delete. apply lookup_insert_eq.
  - intros arguments'.
    rewrite !make_weight_function_eq by assumption. now rewrite Halias.
  - intros spelling Hspelling.
    rewrite make_weight_function_eq by assumption.
    repeat (apply elem_of_cons in Hspelling as [->|Hspelling];
            [unfold new; simpl; now rewrite next_after_delete|]).
    inversion Hspelling.
Qed.

(** ** Unknown names *)

(** The dynamic path with a symbol name, case by case. *)
Lemma make_dynamic_weight_function_cons
    name symbol_name user_arguments y_optimum width s :
  make_dynamic_weight_function name (symbol_name :: user_arguments)
    y_optimum width s =
  match DynamicLoader name with
  | inl (ExposureWeight_error what) =>
      fatal (raised_text symbol_name name what) (log (EvLoad name) s)
  | inl e => (Thrown e, log (EvLoad name) s)
  | inr dynamic_loader =>
      match dl_resolve dynamic_loader symbol_name with
      | inl (ExposureWeight_error what) =>
          fatal (raised_text symbol_name name what)
            (log (EvResolve name symbol_name) (log (EvLoad name) s))
      | inl e =>
          (Thrown e, log (EvResolve name symbol_name) (log (EvLoad name) s))
      | inr function =>
          let s' := entering_initialize name symbol_name dynamic_loader
                      function y_optimum width user_arguments s in
          match uf_initialize function y_optimum width user_arguments with
          | InitializeThrows (ExposureWeight_error what) =>
              fatal (raised_text symbol_name name what) s'
          | InitializeThrows e => (Thrown e, s')
          | Initialized function' =>
              (Returned (next s),
               with_heap
                 (<[next s := DynamicExposureWeight 0.5 0.25 name symbol_name
                                 dynamic_loader function']> (heap s'))
                 s')
          end
      end
  end.
Proof.
  unfold make_dynamic_weight_function, try_catch_error,
    new_DynamicExposureWeight, DynamicExposureWeight_initialize.
  unfold bind, emit, cout, cerr, lift_throwing, load, store, new, exit, throw,
    ret, fatal, entering_initialize.
  destruct (DynamicLoader name) as [[what|what]|dynamic_loader]; simpl;
    try reflexivity.
  destruct (dl_resolve dynamic_loader symbol_name) as [[what|what]|function];
    simpl; try reflexivity.
  rewrite lookup_insert_eq. simpl.
  destruct (uf_initialize function y_optimum width user_arguments)
    as [[what|what]|function']; reflexivity.
Qed.

(** C5 (as the code has it).  With a dynamic loader in the build, a name
    that is no built-in alias and an empty argument list, the factory
    writes one line to the error stream, saying that the name is an
    unknown built-in exposure weight function and quoting the name, then
    exits with status 1; no object is constructed and no pointer is
    returned.  The line is the first line of the report a build without a
    loader gives; it does not speak of a symbol name. *)
Theorem C5_dynamic_path_without_symbol name y_optimum width s :
  HAVE_DYNAMICLOADER_IMPL = true ->
  lookup_alias (enblend.to_lower name) = None ->
  slot_ok s ->
  let r := make_weight_function name [] y_optimum width s in
  r = (Exited 1,
       log (EvExit 1) (log (EvCerr (unknown_text name)) (after_delete s)))
  /\ mentions "unknown built-in exposure weight function" (unknown_text name)
     = true
  /\ mentions (dquote +:+ name +:+ dquote) (unknown_text name) = true
  /\ heap (snd r) = heap (after_delete s)
  /\ (exists rest, unknown_no_loader_text name = unknown_text name +:+ rest).
Proof.
  intros Hdyn Hnone Hslot r. subst r.
  rewrite make_weight_function_eq, Hnone, Hdyn by assumption.
  rewrite make_dynamic_weight_function_nil. unfold fatal.
  split; [reflexivity|]. split; [|split; [|split]].
  - unfold unknown_text. apply mentions_skip. reflexivity.
  - unfold unknown_text. do 2 apply mentions_skip. apply mentions_quoted.
  - reflexivity.
  - unfold unknown_no_loader_text, unknown_text.
    exists (command
            +:+ ": note: this binary has no support for dynamic loading of"
            +:+ endl
            +:+ command +:+ ": note: exposure weight functions" +:+ endl).
    now rewrite !append_assoc.
Qed.

(** C6.  In a build without dynamic loader, a name that is no built-in
    alias makes the factory report that the name is unknown and that the
    binary has no support for dynamic loading, and exit with status 1;
    no object is constructed and no pointer is returned. *)
Theorem C6_unknown_without_loader name arguments y_optimum width s :
  HAVE_DYNAMICLOADER_IMPL = false ->
  lookup_alias (enblend.to_lower name) = None ->
  slot_ok s ->
  let r := make_weight_function name arguments y_optimum width s in
  r = (Exited 1,
       log (EvExit 1)
         (log (EvCerr (unknown_no_loader_text name)) (after_delete s)))
  /\ (1 <> 0)%Z
  /\ mentions "unknown built-in exposure weight function"
       (unknown_no_loader_text name) = true
  /\ mentions (dquote +:+ name +:+ dquote) (unknown_no_loader_text name)
     = true
  /\ mentions "no support for dynamic loading" (unknown_no_loader_text name)
     = true
  /\ heap (snd r) = heap (after_delete s).
Proof.
  intros Hdyn Hnone Hslot r. subst r.
  rewrite make_weight_function_eq, Hnone, Hdyn by assumption.
  unfold fatal. split; [reflexivity|]. split; [lia|].
  split; [|split; [|split]].
  - unfold unknown_no_loader_text. apply mentions_skip. reflexivity.
  - unfold unknown_no_loader_text. do 2 apply mentions_skip.
    apply mentions_quoted.
  - unfold unknown_no_loader_text. do 7 apply mentions_skip. reflexivity.
  - reflexivity.
Qed.

(** ** The dynamic path *)

(** C7.  When the function loaded from the shared object throws an
    [ExposureWeight::error] out of [initialize], the factory catches it,
    writes one line to the error stream that quotes the symbol name and
    the name of the shared object and carries the message of the
    exception, and exits with status 1: the call neither returns a
    pointer nor lets the exception out. *)
Theorem C7_initialize_error_is_fatal
    name symbol_name user_arguments y_optimum width s
    dynamic_loader function what :
  HAVE_DYNAMICLOADER_IMPL = true ->
  lookup_alias (enblend.to_lower name) = None ->
  slot_ok s ->
  DynamicLoader name = inr dynamic_loader ->
  dl_resolve dynamic_loader symbol_name = inr function ->
  uf_initialize function y_optimum width user_arguments
    = InitializeThrows (ExposureWeight_error what) ->
  make_weight_function name (symbol_name :: user_arguments) y_optimum width s
    = (Exited 1,
       log (EvExit 1)
         (log (EvCerr (raised_text symbol_name name what))
            (entering_initialize name symbol_name dynamic_loader function
               y_optimum width user_arguments (after_delete s))))
  /\ (1 <> 0)%Z
  /\ mentions (dquote +:+ symbol_name +:+ dquote)
       (raised_text symbol_name name what) = true
  /\ mentions (dquote +:+ name +:+ dquote)
       (raised_text symbol_name name what) = true
  /\ mentions what (raised_text symbol_name name what) = true.
Proof.
  intros Hdyn Hnone Hslot Hopen Hresolve Hinit.
  rewrite make_weight_function_eq, Hnone, Hdyn by assumption.
  rewrite make_dynamic_weight_function_cons, Hopen, Hresolve. simpl.
  rewrite Hinit. unfold fatal.
  split; [reflexivity|]. split; [lia|]. unfold raised_text.
  split; [|split].
  - do 2 apply mentions_skip. apply mentions_quoted.
  - do 6 apply mentions_skip. apply mentions_quoted.
  - do 10 apply mentions_skip. apply mentions_here.
Qed.

(** C8.  On the dynamic path with arguments [symbol_name :: rest], the
    library opened is the one called [name], the symbol resolved in it is
    [symbol_name], and the loaded function's [initialize] receives
    [y_optimum], [width] and exactly [rest], in order; what the call does
    next is decided by that [initialize] alone. *)
Theorem C8_symbol_then_arguments
    name symbol_name user_arguments y_optimum width s
    dynamic_loader function :
  HAVE_DYNAMICLOADER_IMPL = true ->
  lookup_alias (enblend.to_lower name) = None ->
  slot_ok s ->
  DynamicLoader name = inr dynamic_loader ->
  dl_resolve dynamic_loader symbol_name = inr function ->
  let r := make_weight_function name (symbol_name :: user_arguments)
             y_optimum width s in
  let s' := entering_initialize name symbol_name dynamic_loader function
              y_optimum width user_arguments (after_delete s) in
  trace s'
    = (trace s ++
       [ EvDelete (ExposureWeightFunction s);
         EvLoad name;
         EvResolve name symbol_name;
         EvNew (next s);
         EvCout ("+ DynamicExposureWeight::initialize" +:+ endl);
         EvInitialize symbol_name y_optimum width user_arguments ])%list
  /\ r = match uf_initialize function y_optimum width user_arguments with
         | InitializeThrows (ExposureWeight_error what) =>
             fatal (raised_text symbol_name name what) s'
         | InitializeThrows e => (Thrown e, s')
         | Initialized function' =>
             (Returned (next s),
              with_heap
                (<[next s := DynamicExposureWeight 0.5 0.25 name symbol_name
                                dynamic_loader function']> (heap s'))
                s')
         end
  /\ (exists tail,
        trace (snd r) = (trace s' ++ tail)%list
        /\ forallb (fun e => negb (is_construction e)) tail = true).
Proof.
  intros Hdyn Hnone Hslot Hopen Hresolve r s'. subst r s'.
  rewrite make_weight_function_eq, Hnone, Hdyn by assumption.
  rewrite make_dynamic_weight_function_cons, Hopen, Hresolve. simpl.
  rewrite !next_after_delete.
  split; [|split].
  - rewrite trace_after_delete, <- !app_assoc. reflexivity.
  - reflexivity.
  - destruct (uf_initialize function y_optimum width user_arguments)
      as [[what|what]|function']; simpl; rewrite ?next_after_delete.
    + eexists [_; _]. rewrite <- !app_assoc. split; reflexivity.
    + exists []. rewrite app_nil_r. split; reflexivity.
    + exists []. rewrite app_nil_r. split; reflexivity.
Qed.

(** ** Ownership of the active weight function *)

(** Every way through the factory, one goal each. *)
Ltac walk_factory name arguments :=
  match goal with
  | Hslot : slot_ok ?s |- _ =>
      rewrite (make_weight_function_eq name arguments _ _ s Hslot) in *
  end;
  destruct (lookup_alias (enblend.to_lower name)) as [class|];
  [ | destruct HAVE_DYNAMICLOADER_IMPL;
      [ destruct arguments as [|symbol_name user_arguments];
        [ rewrite make_dynamic_weight_function_nil in *
        | rewrite make_dynamic_weight_function_cons in *;
          destruct (DynamicLoader name) as [[what|what]|dynamic_loader];
          [ | | destruct (dl_resolve dynamic_loader symbol_name)
                  as [[what|what]|function];
                [ | | destruct (uf_initialize function _ _ user_arguments)
                        as [[what|what]|function'] ] ] ]
      | ] ];
  unfold fatal, new in *; simpl in *.

Lemma old_object_stays_dead s p object :
  ids_fresh s ->
  ExposureWeightFunction s = Some p ->
  slot_ok s ->
  <[next s := object]> (heap (after_delete s)) !! p = None.
Proof.
  intros Hfresh Hp Hslot. unfold slot_ok in Hslot. rewrite Hp in Hslot.
  apply Hfresh in Hslot.
  rewrite lookup_insert_ne by lia. now apply heap_after_delete.
Qed.

(** C10.  Whenever a call of the factory ends in [exit], the status is 1
    and the object the global pointer held at the start has already been
    destroyed: its delete is the first event of the call and the report on
    the error stream and the exit are the last two, with no further delete
    in between; the global pointer itself still holds the old, now dead,
    address.  The calls that end this way are the unknown name in a build
    without loader, the empty argument list on the dynamic path, and an
    [ExposureWeight::error] caught on the dynamic path. *)
Theorem C10_replacement_not_atomic name arguments y_optimum width s status :
  slot_ok s ->
  ids_fresh s ->
  fst (make_weight_function name arguments y_optimum width s) = Exited status ->
  let s' := snd (make_weight_function name arguments y_optimum width s) in
  status = 1
  /\ ExposureWeightFunction s' = ExposureWeightFunction s
  /\ (forall p, ExposureWeightFunction s = Some p -> heap s' !! p = None)
  /\ (exists middle text,
        trace s'
        = (trace s ++ EvDelete (ExposureWeightFunction s) :: middle
             ++ [EvCerr text; EvExit 1])%list
        /\ forallb (fun e => negb (is_delete e)) middle = true
        /\ (lookup_alias (enblend.to_lower name) = None)
        /\ ((HAVE_DYNAMICLOADER_IMPL = false
             /\ text = unknown_no_loader_text name)
            \/ (HAVE_DYNAMICLOADER_IMPL = true /\ arguments = []
                /\ text = unknown_text name)
            \/ (HAVE_DYNAMICLOADER_IMPL = true
                /\ exists symbol_name user_arguments what,
                     arguments = symbol_name :: user_arguments
                     /\ text = raised_text symbol_name name what))).
Proof.
  intros Hslot Hfresh Hexit s'. subst s'.
  walk_factory name arguments; try discriminate;
    injection Hexit as <-;
    (split; [reflexivity|]);
    (split; [apply slot_after_delete|]);
    rewrite ?next_after_delete;
    (split;
     [ intros p Hp;
       first [ now apply heap_after_delete
             | now apply old_object_stays_dead ] | ]);
    rewrite trace_after_delete, <- ?app_assoc; simpl.
  - exists [], (unknown_text name). repeat split; eauto.
  - exists [EvLoad name], (raised_text symbol_name name what).
    repeat split; eauto 10.
  - exists [EvLoad name; EvResolve name symbol_name],
      (raised_text symbol_name name what).
    repeat split; eauto 10.
  - eexists [_; _; _; _; _], (raised_text symbol_name name what).
    repeat split; eauto 10.
  - exists [], (unknown_no_loader_text name). repeat split; eauto.
Qed.

Lemma exclusive_slot_ok s : exclusive s -> slot_ok s.
Proof.
  unfold exclusive, slot_ok.
  destruct (ExposureWeightFunction s) as [p|]; [|done].
  intros [object ->]. rewrite lookup_singleton_eq. eauto.
Qed.

Lemma exclusive_after_delete s : exclusive s -> heap (after_delete s) = ∅.
Proof.
  unfold exclusive, after_delete.
  destruct (ExposureWeightFunction s) as [p|]; simpl; [|done].
  intros [object ->]. apply delete_singleton_eq.
Qed.

Lemma exclusive_release s :
  exclusive s ->
  forall events,
    live_counts (size (heap s))
      (EvDelete (ExposureWeightFunction s) :: events)
    = 0%nat :: live_counts 0 events.
Proof.
  unfold exclusive. intros Hexcl events. revert Hexcl. simpl.
  destruct (ExposureWeightFunction s) as [p|].
  - intros [object ->]. now rewrite map_size_singleton.
  - intros ->. now rewrite map_size_empty.
Qed.

Lemma exclusive_install q object s :
  heap s = {[ q := object ]} -> next s = S q ->
  exclusive (install q s) /\ ids_fresh (install q s).
Proof.
  intros Hheap Hnext. split.
  - unfold exclusive. simpl. eauto.
  - intros l [object' Hl]. simpl in *. rewrite Hheap in Hl.
    apply lookup_singleton_Some in Hl as [<- _]. lia.
Qed.

(** One call from a state of exclusive ownership. *)
Lemma factory_run name arguments y_optimum width s :
  exclusive s ->
  ids_fresh s ->
  let r := make_weight_function name arguments y_optimum width s in
  (exists events,
     trace (snd r)
     = (trace s ++ EvDelete (ExposureWeightFunction s) :: events)%list
     /\ forallb (fun e => negb (is_delete e)) events = true
     /\ Forall (fun live => (live <= 1)%nat)
          (live_counts (size (heap s))
             (EvDelete (ExposureWeightFunction s) :: events)))
  /\ (forall p, ExposureWeightFunction s = Some p -> heap (snd r) !! p = None)
  /\ (forall q, fst r = Returned q ->
        exclusive (install q (snd r)) /\ ids_fresh (install q (snd r))).
Proof.
  intros Hexcl Hfresh r. subst r.
  pose proof (exclusive_slot_ok s Hexcl) as Hslot.
  pose proof (exclusive_after_delete s Hexcl) as Hempty.
  setoid_rewrite (exclusive_release s Hexcl).
  walk_factory name arguments;
    rewrite ?next_after_delete, ?trace_after_delete, <- ?app_assoc;
    (split; [eexists; split; [simpl; reflexivity|];
             split; [reflexivity|];
             simpl;
             repeat first [apply Forall_nil_2 | apply Forall_cons_2; [lia|]] |]);
    (split;
     [ intros p Hp;
       first [ now apply heap_after_delete
             | now apply old_object_stays_dead
             | rewrite lookup_insert_ne;
               [ now apply old_object_stays_dead
               | unfold slot_ok in Hslot; rewrite Hp in Hslot;
                 apply Hfresh in Hslot; lia ] ] | ]);
    intros q Hq; try discriminate; injection Hq as <-;
    eapply exclusive_install; simpl;
    rewrite ?next_after_delete, ?Hempty, ?insert_insert_eq, ?insert_empty;
    reflexivity.
Qed.

(** C2.  From a state in which the only live weight function is the one
    the global pointer holds, a call of the factory starts by deleting
    that object: the delete is the first event of the call, before any
    load, resolve, initialize or allocation, and there is no other delete.
    The number of live weight functions never exceeds one during the
    call, and the old object is dead at its end.  Once the caller has
    stored the returned pointer in the global, the state is again one of
    exclusive ownership, and a second call starts by deleting the object
    the first call produced, which is dead when the second call ends,
    however it ends. *)
Theorem C2_release_before_construction name arguments y_optimum width s :
  exclusive s ->
  ids_fresh s ->
  let r := make_weight_function name arguments y_optimum width s in
  (exists events,
     trace (snd r)
     = (trace s ++ EvDelete (ExposureWeightFunction s) :: events)%list
     /\ forallb (fun e => negb (is_delete e)) events = true
     /\ Forall (fun live => (live <= 1)%nat)
          (live_counts (size (heap s))
             (EvDelete (ExposureWeightFunction s) :: events)))
  /\ (forall p, ExposureWeightFunction s = Some p -> heap (snd r) !! p = None)
  /\ (forall q, fst r = Returned q ->
        is_Some (heap (snd r) !! q)
        /\ exclusive (install q (snd r))
        /\ forall name2 arguments2 y_optimum2 width2,
             let r2 := make_weight_function name2 arguments2 y_optimum2 width2
                         (install q (snd r)) in
             heap (snd r2) !! q = None
             /\ exists events2,
                  trace (snd r2)
                  = (trace (snd r) ++ EvDelete (Some q) :: events2)%list
                  /\ Forall (fun live => (live <= 1)%nat)
                       (live_counts 1 (EvDelete (Some q) :: events2))).
Proof.
  intros Hexcl Hfresh r.
  destruct (factory_run name arguments y_optimum width s Hexcl Hfresh)
    as (Hfirst & Hdead & Hnext).
  fold r in Hfirst, Hdead, Hnext.
  split; [exact Hfirst|]. split; [exact Hdead|].
  intros q Hq. destruct (Hnext q Hq) as [Hexcl2 Hfresh2].
  split; [|split; [exact Hexcl2|]].
  - unfold exclusive in Hexcl2. simpl in Hexcl2.
    destruct Hexcl2 as [object ->]. rewrite lookup_singleton_eq. eauto.
  - intros name2 arguments2 y_optimum2 width2 r2.
    destruct (factory_run name2 arguments2 y_optimum2 width2
                (install q (snd r)) Hexcl2 Hfresh2)
      as ((events2 & Htrace & _ & Hlive) & Hdead2 & _).
    fold r2 in Htrace, Hdead2.
    split; [now apply Hdead2|].
    exists events2. split; [exact Htrace|].
    assert (size (heap (install q (snd r))) = 1%nat) as Hsize.
    { unfold exclusive in Hexcl2. simpl in Hexcl2.
      destruct Hexcl2 as [object Hheap]. simpl. rewrite Hheap.
      apply map_size_singleton. }
    rewrite Hsize in Hlive. exact Hlive.
Qed.

(** ** Diagnostics: the grid, the dump and the range check *)

Lemma log_all_log e evs s : log_all evs (log e s) = log_all (e :: evs) s.
Proof. unfold log_all, log. simpl. now rewrite <- app_assoc. Qed.

Lemma log_all_nil s : log_all [] s = s.
Proof. destruct s. unfold log_all. simpl. now rewrite app_nil_r. Qed.

Lemma faults_on_cons curve n i indices :
  faults_on curve n (i :: indices)
  = (if is_fault (weight curve (grid n i)) then 1 else 0)
    + faults_on curve n indices.
Proof.
  unfold faults_on. simpl.
  destruct (is_fault (weight curve (grid n i))); simpl; lia.
Qed.

Lemma faults_on_nonneg curve n indices : 0 <= faults_on curve n indices.
Proof. unfold faults_on. lia. Qed.

Lemma faults_on_le curve n indices :
  faults_on curve n indices <= Z.of_nat (length indices).
Proof.
  induction indices as [|i indices IH]; [reflexivity|].
  rewrite faults_on_cons. simpl length.
  destruct (is_fault (weight curve (grid n i))); lia.
Qed.

Lemma faults_on_zero curve n indices :
  faults_on curve n indices = 0
  <-> forall i, i ∈ indices -> is_fault (weight curve (grid n i)) = false.
Proof.
  induction indices as [|i indices IH].
  - split; [|reflexivity]. intros _ i Hi. inversion Hi.
  - rewrite faults_on_cons. pose proof (faults_on_nonneg curve n indices).
    split.
    + intros Hzero j Hj.
      destruct (is_fault (weight curve (grid n i))) eqn:Hi; [lia|].
      apply elem_of_cons in Hj as [->|Hj]; [exact Hi|].
      apply IH; [lia | exact Hj].
    + intros Hall. rewrite (Hall i) by apply list_elem_of_here.
      apply proj2 in IH. rewrite IH; [reflexivity|].
      intros j Hj. apply Hall. now apply list_elem_of_further.
Qed.

(** The counter fits any integer type as wide as [int]. *)
Lemma fault_count_bounds curve n :
  0 <= n -> 0 <= fault_count curve n <= n.
Proof.
  intros Hn. unfold fault_count. split; [apply faults_on_nonneg|].
  etransitivity; [apply faults_on_le|]. rewrite length_seqZ. lia.
Qed.

(** The increments commute: an OpenMP schedule that visits the indices in
    another order arrives at the same count. *)
Lemma faults_on_Permutation curve n indices indices' :
  Permutation indices indices' ->
  faults_on curve n indices = faults_on curve n indices'.
Proof.
  intros Hperm. induction Hperm as [|i l l' _ IH|i j l|l l' l'' _ IH1 _ IH2].
  - reflexivity.
  - rewrite !faults_on_cons. now rewrite IH.
  - rewrite !faults_on_cons. lia.
  - now rewrite IH1.
Qed.

Lemma call_weight_live curve p y s :
  heap s !! p = Some curve ->
  call_weight p y s = (Returned (weight curve y), s).
Proof. intros Hp. unfold call_weight, bind, load. now rewrite Hp. Qed.

Lemma check_loop curve p n s :
  heap s !! p = Some curve ->
  forall fuel i number_of_faults,
    (Z.to_nat (n - i) <= fuel)%nat ->
    for_loop fuel i n
      (fun i number_of_faults =>
         let y := grid n i in
         w <- call_weight p y ;;
         if is_fault w then ret (number_of_faults + 1)
         else ret number_of_faults)
      number_of_faults s
    = (Returned (number_of_faults + faults_on curve n (seqZ i (n - i))), s).
Proof.
  intros Hp fuel.
  induction fuel as [|fuel IH]; intros i number_of_faults Hfuel;
    cbn [for_loop].
  - rewrite seqZ_nil by lia. unfold ret, faults_on. simpl.
    now rewrite Z.add_0_r.
  - destruct (Z.ltb_spec i n) as [Hlt|Hge].
    + unfold bind at 1. unfold bind at 1.
      rewrite (call_weight_live curve p _ s Hp).
      rewrite (seqZ_cons i (n - i)) by lia. rewrite faults_on_cons.
      replace (Z.pred (n - i)) with (n - (i + 1)) by lia.
      replace (Z.succ i) with (i + 1) by lia.
      destruct (is_fault (weight curve (grid n i)));
        unfold ret at 1; rewrite IH by lia; f_equal; f_equal; lia.
    + rewrite seqZ_nil by lia. unfold ret, faults_on. simpl.
      now rewrite Z.add_0_r.
Qed.

Lemma dump_loop curve p n :
  forall fuel i s,
    heap s !! p = Some curve ->
    (Z.to_nat (n - i) <= fuel)%nat ->
    for_loop fuel i n
      (fun i _ =>
         let x := grid n i in
         w <- call_weight p x ;;
         cout (dump_line i x w))
      tt s
    = (Returned tt,
       log_all
         ((fun i => EvCout (dump_line i (grid n i) (weight curve (grid n i))))
            <$> seqZ i (n - i))
         s).
Proof.
  induction fuel as [|fuel IH]; intros i s Hp Hfuel; cbn [for_loop].
  - rewrite seqZ_nil by lia. simpl. now rewrite log_all_nil.
  - destruct (Z.ltb_spec i n) as [Hlt|Hge].
    + unfold bind at 1. unfold bind at 1.
      rewrite (call_weight_live curve p _ s Hp). unfold cout, emit.
      rewrite IH by (simpl; first [assumption | lia]).
      rewrite (seqZ_cons i (n - i)) by lia.
      replace (Z.pred (n - i)) with (n - (i + 1)) by lia.
      replace (Z.succ i) with (i + 1) by lia.
      rewrite fmap_cons, <- log_all_log. reflexivity.
    + rewrite seqZ_nil by lia. simpl. now rewrite log_all_nil.
Qed.

(** The embedded conversion and division are the ones of the
    specification of binary64 arithmetic. *)
Lemma double_of_int_spec i :
  0 <= i <= INT_MAX ->
  Prim2SF (double_of_int i) = binary_normalize prec emax i 0 false.
Proof.
  intros Hi. unfold double_of_int.
  destruct (Z.leb_spec 0 i) as [_|Hneg]; [|lia].
  rewrite FloatAxioms.of_uint63_spec, Uint63.of_Z_spec.
  rewrite Z.mod_small; [reflexivity|].
  split; [lia|]. apply Z.le_lt_trans with INT_MAX; [lia | reflexivity].
Qed.

Lemma grid_spec n i :
  0 <= i < n -> n <= INT_MAX -> grid n i = spec_grid_point n i.
Proof.
  intros Hi Hn. unfold grid, spec_grid_point.
  rewrite <- (FloatAxioms.SF2Prim_Prim2SF (PrimFloat.div _ _)).
  rewrite FloatAxioms.div_spec, !double_of_int_spec
    by (unfold INT_MAX in *; lia).
  reflexivity.
Qed.

Lemma fault_count_spec curve n :
  n <= INT_MAX ->
  fault_count curve n = spec_fault_count (weight curve) n.
Proof.
  intros Hn. unfold fault_count, faults_on, spec_fault_count.
  do 2 f_equal. apply List.filter_ext_in. intros i Hi.
  apply list_elem_of_In, elem_of_seqZ in Hi.
  rewrite grid_spec by lia. reflexivity.
Qed.

Lemma assert_holds condition s :
  condition = true -> assert condition s = (Returned tt, s).
Proof. intros ->. unfold assert. now rewrite orb_true_r. Qed.

(** C3.  For a live curve and an [int] [n >= 2], the check returns,
    without touching the state, whether the fault count is zero, where
    the fault count is the number of indices [i] in [0, n) whose sample
    [w = weight (i / (n - 1))] has [w < 0] or [w >= 1].  The abscissa the
    code computes at index [i] is the binary64 quotient of [i] and
    [n - 1] of the specification; there are [n] indices, for [n = 5] at
    0, 0.25, 0.5, 0.75 and 1; the count is zero exactly if no sample is a
    fault; and a curve that yields 1.5 at a sampled point makes the check
    return false. *)
Theorem C3_check_counts_faults curve p n s :
  2 <= n ->
  n <= INT_MAX ->
  heap s !! p = Some curve ->
  check_weight_function p n s
    = (Returned (spec_fault_count (weight curve) n =? 0), s)
  /\ (forall i, 0 <= i < n -> grid n i = spec_grid_point n i)
  /\ spec_grid_point 5 <$> seqZ 0 5 = [0; 0.25; 0.5; 0.75; 1]%float
  /\ length (seqZ 0 n) = Z.to_nat n
  /\ (spec_fault_count (weight curve) n = 0
      <-> forall i, 0 <= i < n ->
            let w := weight curve (spec_grid_point n i) in
            PrimFloat.ltb w 0 || PrimFloat.leb 1 w = false)
  /\ (forall w, is_fault w = PrimFloat.ltb w 0 || PrimFloat.leb 1 w)
  /\ (forall i, 0 <= i < n ->
        weight curve (spec_grid_point n i) = 1.5%float ->
        check_weight_function p n s = (Returned false, s)).
Proof.
  intros Hn Hint Hp.
  assert (check_weight_function p n s
          = (Returned (spec_fault_count (weight curve) n =? 0), s)) as Hrun.
  { unfold check_weight_function. unfold bind at 1.
    rewrite assert_holds by (apply Z.leb_le; lia).
    unfold bind at 1.
    rewrite (check_loop curve p n s Hp) by (rewrite Z.sub_0_r; lia).
    rewrite Z.sub_0_r. fold (fault_count curve n).
    now rewrite fault_count_spec by assumption. }
  assert (spec_fault_count (weight curve) n = 0
          <-> forall i, 0 <= i < n ->
                let w := weight curve (spec_grid_point n i) in
                PrimFloat.ltb w 0 || PrimFloat.leb 1 w = false) as Hzero.
  { rewrite <- fault_count_spec by assumption.
    unfold fault_count. rewrite faults_on_zero.
    split; intros Hall i Hi.
    - cbv zeta. rewrite <- grid_spec by lia.
      apply Hall. apply elem_of_seqZ. lia.
    - apply elem_of_seqZ in Hi. rewrite grid_spec by lia.
      apply Hall. lia. }
  split; [exact Hrun|].
  split; [intros i Hi; now apply grid_spec|].
  split; [vm_compute; reflexivity|].
  split; [apply length_seqZ|].
  split; [exact Hzero|]. split; [reflexivity|].
  intros i Hi Hw. rewrite Hrun. do 2 f_equal.
  apply Z.eqb_neq. intros Hcount.
  apply Hzero with (i := i) in Hcount; [|exact Hi].
  cbv zeta in Hcount. rewrite Hw in Hcount. discriminate Hcount.
Qed.


(** ** What a call leaves behind *)

Lemma continues_refl b : ids_fresh b -> continues b b.
Proof. intros Hfresh. repeat split; [exact Hfresh | lia]. Qed.

Lemma continues_log b s' e : continues b s' -> continues b (log e s').
Proof. intros H. exact H. Qed.

Lemma continues_alloc b s' object :
  continues b s' -> continues b (alloc object s').
Proof.
  intros (Hslot & Hheap & Hfresh & Hnext). repeat split; simpl.
  - exact Hslot.
  - intros l Hl. rewrite lookup_insert_ne by lia. now apply Hheap.
  - intros l Hl. simpl in *.
    destruct (decide (l = next s')) as [->|Hne]; [lia|].
    rewrite lookup_insert_ne in Hl by congruence.
    apply Hfresh in Hl. lia.
  - lia.
Qed.

Lemma continues_store b s' q object :
  continues b s' -> (next b <= q < next s')%nat ->
  continues b (with_heap (<[q := object]> (heap s')) s').
Proof.
  intros (Hslot & Hheap & Hfresh & Hnext) Hq. repeat split; simpl.
  - exact Hslot.
  - intros l Hl. rewrite lookup_insert_ne by lia. now apply Hheap.
  - intros l Hl. simpl in *.
    destruct (decide (l = q)) as [->|Hne]; [lia|].
    rewrite lookup_insert_ne in Hl by congruence. now apply Hfresh.
  - exact Hnext.
Qed.

Lemma ids_fresh_after_delete s : ids_fresh s -> ids_fresh (after_delete s).
Proof.
  intros Hfresh l Hl. rewrite next_after_delete. apply Hfresh.
  unfold after_delete in Hl.
  destruct (ExposureWeightFunction s) as [p|]; simpl in Hl; [|exact Hl].
  destruct (decide (l = p)) as [->|Hne].
  - rewrite lookup_delete_eq in Hl. now destruct Hl.
  - now rewrite lookup_delete_ne in Hl by congruence.
Qed.

Lemma heap_after_delete_other s l :
  ExposureWeightFunction s <> Some l ->
  heap (after_delete s) !! l = heap s !! l.
Proof.
  intros Hne. unfold after_delete.
  destruct (ExposureWeightFunction s) as [p|]; simpl; [|reflexivity].
  apply lookup_delete_ne. congruence.
Qed.

(** The dispatch of the factory without unfolding anything below it. *)
Ltac walk_factory_folded name arguments :=
  match goal with
  | Hslot : slot_ok ?s |- _ =>
      rewrite (make_weight_function_eq name arguments _ _ s Hslot) in *
  end;
  destruct (lookup_alias (enblend.to_lower name)) as [class|];
  [ | destruct HAVE_DYNAMICLOADER_IMPL;
      [ destruct arguments as [|symbol_name user_arguments];
        [ rewrite make_dynamic_weight_function_nil in *
        | rewrite make_dynamic_weight_function_cons in *;
          destruct (DynamicLoader name) as [[what|what]|dynamic_loader];
          [ | | destruct (dl_resolve dynamic_loader symbol_name)
                  as [[what|what]|function];
                [ | | cbv zeta in *;
                      destruct (uf_initialize function _ _ user_arguments)
                        as [[what|what]|function'] ] ] ]
      | ] ];
  unfold fatal, new, entering_initialize in *; cbn [fst snd] in *.

(** Whatever a call does, it does after the delete and on top of it. *)
Lemma factory_continues name arguments y_optimum width s :
  slot_ok s ->
  ids_fresh s ->
  continues (after_delete s)
    (snd (make_weight_function name arguments y_optimum width s)).
Proof.
  intros Hslot Hfresh.
  pose proof (continues_refl _ (ids_fresh_after_delete s Hfresh)) as Hbase.
  walk_factory_folded name arguments;
    repeat first
      [ exact Hbase
      | apply continues_log
      | apply continues_alloc
      | apply continues_store; [|simpl; rewrite ?next_after_delete; lia] ].
Qed.

(** X1.  With a global pointer that is null or live, a call of the
    factory has one of three ends: it returns the identity of the object
    it has just allocated, it exits with status 1, or it lets out an
    exception that is not an [ExposureWeight::error].  It never aborts
    and never runs into undefined behaviour. *)
Theorem factory_outcome_kinds name arguments y_optimum width s :
  slot_ok s ->
  match fst (make_weight_function name arguments y_optimum width s) with
  | Returned q => q = next s
  | Exited status => status = 1
  | Thrown e => exists what, e = other_exception what
  | Aborted => False
  | Undefined => False
  end.
Proof.
  intros Hslot.
  walk_factory name arguments; rewrite ?next_after_delete; eauto.
Qed.

(** X2.  When a call lets an exception out, it has reported nothing:
    among the events of the call there is no line on the error stream and
    no [exit].  This happens only on the dynamic path with a symbol name;
    the old object is deleted all the same and the global pointer keeps
    its address. *)
Theorem escaping_exception_is_silent name arguments y_optimum width s e :
  slot_ok s ->
  ids_fresh s ->
  fst (make_weight_function name arguments y_optimum width s) = Thrown e ->
  let s' := snd (make_weight_function name arguments y_optimum width s) in
  (exists events,
     trace s' = (trace s ++ EvDelete (ExposureWeightFunction s) :: events)%list
     /\ forallb (fun ev => negb (is_report ev)) events = true)
  /\ HAVE_DYNAMICLOADER_IMPL = true
  /\ lookup_alias (enblend.to_lower name) = None
  /\ arguments <> []
  /\ ExposureWeightFunction s' = ExposureWeightFunction s
  /\ (forall p, ExposureWeightFunction s = Some p -> heap s' !! p = None).
Proof.
  intros Hslot Hfresh Hthrown s'. subst s'.
  pose proof (factory_continues name arguments y_optimum width s Hslot Hfresh)
    as (Hsame & Hheap & _ & _).
  assert (forall p, ExposureWeightFunction s = Some p ->
            heap (snd (make_weight_function name arguments y_optimum width s))
              !! p = None) as Hdead.
  { intros p Hp. rewrite Hheap.
    - now apply heap_after_delete.
    - rewrite next_after_delete. apply Hfresh.
      unfold slot_ok in Hslot. now rewrite Hp in Hslot. }
  rewrite slot_after_delete in Hsame.
  revert Hthrown Hsame Hdead. clear Hheap.
  walk_factory name arguments; intros Hthrown Hsame Hdead;
    try discriminate Hthrown;
    rewrite ?trace_after_delete, <- ?app_assoc; simpl;
    (split; [eexists; split; reflexivity|]);
    repeat split; try assumption; try discriminate.
Qed.

(** X3.  When [initialize] of the loaded function throws, whatever it
    throws, the wrapper that was allocated for it is still alive when the
    call ends, still holding the function as it was resolved: nothing on
    that path deletes it.  After a caught [ExposureWeight::error] the
    process exits; after any other exception the object is lost to the
    caller, who never received its address. *)
Theorem wrapper_outlives_failed_initialize
    name symbol_name user_arguments y_optimum width s
    dynamic_loader function e :
  HAVE_DYNAMICLOADER_IMPL = true ->
  lookup_alias (enblend.to_lower name) = None ->
  slot_ok s ->
  DynamicLoader name = inr dynamic_loader ->
  dl_resolve dynamic_loader symbol_name = inr function ->
  uf_initialize function y_optimum width user_arguments = InitializeThrows e ->
  let r := make_weight_function name (symbol_name :: user_arguments)
             y_optimum width s in
  heap (snd r) !! next s
    = Some (DynamicExposureWeight 0.5 0.25 name symbol_name
              dynamic_loader function)
  /\ (exists events,
        trace (snd r)
        = (trace s ++ EvDelete (ExposureWeightFunction s) :: events)%list
        /\ EvNew (next s) ∈ events
        /\ forallb (fun ev => negb (is_delete ev)) events = true)
  /\ fst r = match e with
             | ExposureWeight_error _ => Exited 1
             | other_exception _ => Thrown e
             end.
Proof.
  intros Hdyn Hnone Hslot Hopen Hresolve Hinit r. subst r.
  rewrite make_weight_function_eq, Hnone, Hdyn by assumption.
  rewrite make_dynamic_weight_function_cons, Hopen, Hresolve. cbv zeta.
  rewrite Hinit.
  destruct e as [what|what]; unfold fatal, entering_initialize; simpl;
    rewrite next_after_delete, trace_after_delete, <- ?app_assoc; simpl;
    (split; [apply lookup_insert_eq|]);
    (split; [|reflexivity]);
    eexists; (split; [reflexivity|]); (split; [|reflexivity]);
    do 2 apply list_elem_of_further; apply list_elem_of_here.
Qed.

(** X4.  An [ExposureWeight::error] thrown while the library is opened
    or the symbol is resolved, that is by the constructor of the wrapper,
    is caught by the same handler as one thrown by [initialize]: the call
    writes the same kind of report, naming the symbol and the library,
    and exits with status 1.  No wrapper exists at that point and
    [initialize] is never entered. *)
Theorem construction_error_is_reported
    name symbol_name user_arguments y_optimum width s what :
  HAVE_DYNAMICLOADER_IMPL = true ->
  lookup_alias (enblend.to_lower name) = None ->
  slot_ok s ->
  (DynamicLoader name = inl (ExposureWeight_error what)
   \/ exists dynamic_loader,
        DynamicLoader name = inr dynamic_loader
        /\ dl_resolve dynamic_loader symbol_name
           = inl (ExposureWeight_error what)) ->
  let r := make_weight_function name (symbol_name :: user_arguments)
             y_optimum width s in
  fst r = Exited 1
  /\ heap (snd r) = heap (after_delete s)
  /\ (exists events,
        trace (snd r)
        = (trace s ++ EvDelete (ExposureWeightFunction s) :: events
             ++ [EvCerr (raised_text symbol_name name what); EvExit 1])%list
        /\ (events = [EvLoad name]
            \/ events = [EvLoad name; EvResolve name symbol_name])).
Proof.
  intros Hdyn Hnone Hslot Hthrows r. subst r.
  rewrite make_weight_function_eq, Hnone, Hdyn by assumption.
  rewrite make_dynamic_weight_function_cons.
  destruct Hthrows as [Hopen | (dynamic_loader & Hopen & Hresolve)];
    rewrite Hopen, ?Hresolve; unfold fatal; simpl;
    rewrite trace_after_delete, <- ?app_assoc; simpl;
    (split; [reflexivity|]); (split; [reflexivity|]).
  - exists [EvLoad name]. split; [reflexivity | now left].
  - exists [EvLoad name; EvResolve name symbol_name].
    split; [reflexivity | now right].
Qed.

(** X5.  When the library opens, the symbol resolves and [initialize]
    succeeds, the call returns the wrapper.  The wrapper's own optimum
    and width are the constants 0.5 and 0.25 of the two-argument
    constructor, whatever [y_optimum] and [width] the caller gave: those
    reach the loaded function through [initialize] only.  The wrapper
    holds the function as [initialize] left it, and its [weight] is that
    function's [weight].  Nothing is written to the error stream. *)
Theorem dynamic_success_returns_wrapper
    name symbol_name user_arguments y_optimum width s
    dynamic_loader function function' :
  HAVE_DYNAMICLOADER_IMPL = true ->
  lookup_alias (enblend.to_lower name) = None ->
  slot_ok s ->
  DynamicLoader name = inr dynamic_loader ->
  dl_resolve dynamic_loader symbol_name = inr function ->
  uf_initialize function y_optimum width user_arguments
    = Initialized function' ->
  let r := make_weight_function name (symbol_name :: user_arguments)
             y_optimum width s in
  fst r = Returned (next s)
  /\ heap (snd r) !! next s
     = Some (DynamicExposureWeight 0.5 0.25 name symbol_name
               dynamic_loader function')
  /\ (forall y, call_weight (next s) y (snd r)
                = (Returned (uf_weight function' y), snd r))
  /\ (exists events,
        trace (snd r)
        = (trace s ++ EvDelete (ExposureWeightFunction s) :: events)%list
        /\ forallb (fun ev => negb (is_report ev)) events = true).
Proof.
  intros Hdyn Hnone Hslot Hopen Hresolve Hinit r. subst r.
  rewrite make_weight_function_eq, Hnone, Hdyn by assumption.
  rewrite make_dynamic_weight_function_cons, Hopen, Hresolve. cbv zeta.
  rewrite Hinit. unfold entering_initialize. simpl.
  rewrite next_after_delete, trace_after_delete, <- ?app_assoc. simpl.
  split; [reflexivity|]. split; [apply lookup_insert_eq|]. split.
  - intros y. unfold call_weight, bind, load. simpl.
    now rewrite lookup_insert_eq.
  - eexists. split; reflexivity.
Qed.


(** X6.  A pointer the factory returns points to an object that this
    very call has allocated, after its leading delete, and that nothing
    has deleted since: it is alive when the call returns.  A call that
    returns has written nothing to the error stream and has not exited. *)
Theorem returned_pointer_is_fresh name arguments y_optimum width s q :
  slot_ok s ->
  fst (make_weight_function name arguments y_optimum width s) = Returned q ->
  let s' := snd (make_weight_function name arguments y_optimum width s) in
  is_Some (heap s' !! q)
  /\ (exists events,
        trace s'
        = (trace s ++ EvDelete (ExposureWeightFunction s) :: events)%list
        /\ EvNew q ∈ events
        /\ forallb (fun ev => negb (is_delete ev)) events = true
        /\ forallb (fun ev => negb (is_report ev)) events = true).
Proof.
  intros Hslot Hq s'. subst s'.
  walk_factory name arguments; try discriminate Hq;
    injection Hq as <-;
    rewrite ?next_after_delete, ?trace_after_delete, <- ?app_assoc; simpl;
    (split; [rewrite lookup_insert_eq; eauto|]);
    eexists; (split; [reflexivity|]);
    (split; [|split; reflexivity]).
  - apply list_elem_of_here.
  - do 2 apply list_elem_of_further. apply list_elem_of_here.
Qed.

(** X7.  The only object a call deletes is the one the global pointer
    holds: every other live object is alive when the call ends, however
    it ends, and if it is one of the five built-in curves it is the same
    curve with the same two numbers. *)
Theorem other_objects_stay_alive name arguments y_optimum width s l object :
  slot_ok s ->
  ids_fresh s ->
  heap s !! l = Some object ->
  ExposureWeightFunction s <> Some l ->
  let s' := snd (make_weight_function name arguments y_optimum width s) in
  is_Some (heap s' !! l)
  /\ (is_built_in object = true -> heap s' !! l = Some object).
Proof.
  intros Hslot Hfresh Hl Hne s'. subst s'.
  pose proof (factory_continues name arguments y_optimum width s Hslot Hfresh)
    as (_ & Hheap & _ & _).
  assert (heap (snd (make_weight_function name arguments y_optimum width s))
            !! l = Some object) as Hsame.
  { rewrite Hheap.
    - now rewrite heap_after_delete_other.
    - rewrite next_after_delete. apply Hfresh. rewrite Hl. eauto. }
  split; [rewrite Hsame; eauto | intros _; exact Hsame].
Qed.

Lemma delete_of_dead_object name arguments y_optimum width s :
  dangling s ->
  make_weight_function name arguments y_optimum width s = (Undefined, s).
Proof.
  intros (p & Hp & Hdead). unfold make_weight_function.
  unfold bind at 1. unfold read_ExposureWeightFunction at 1.
  unfold bind at 1. unfold delete_ptr. now rewrite Hp, Hdead.
Qed.

(** X8.  The factory deletes the object the global pointer holds but
    leaves the pointer as it is: after a call that started with a
    non-null global pointer, that pointer holds the address of a dead
    object.  So if another call follows while the global pointer still
    has its old value (the result was not stored, or an exception was
    let out), the second call deletes the same object a second time: it
    is undefined from its first statement on, whatever its arguments. *)
Theorem second_call_on_stale_pointer
    name arguments y_optimum width s p
    name2 arguments2 y_optimum2 width2 :
  slot_ok s ->
  ids_fresh s ->
  ExposureWeightFunction s = Some p ->
  let s' := snd (make_weight_function name arguments y_optimum width s) in
  dangling s'
  /\ make_weight_function name2 arguments2 y_optimum2 width2 s'
     = (Undefined, s').
Proof.
  intros Hslot Hfresh Hp s'.
  assert (dangling s') as Hdangling.
  { subst s'.
    pose proof (factory_continues name arguments y_optimum width s
                  Hslot Hfresh) as (Hsame & Hheap & _ & _).
    exists p. split.
    - now rewrite Hsame, slot_after_delete.
    - rewrite Hheap.
      + now apply heap_after_delete.
      + rewrite next_after_delete. apply Hfresh.
        unfold slot_ok in Hslot. now rewrite Hp in Hslot. }
  split; [exact Hdangling | now apply delete_of_dead_object].
Qed.


(** ** The diagnostics at the edges *)

Lemma check_run curve p n s :
  NDEBUG || (2 <=? n) = true ->
  heap s !! p = Some curve ->
  check_weight_function p n s = (Returned (fault_count curve n =? 0), s).
Proof.
  intros Hassert Hp. unfold check_weight_function. unfold bind at 1.
  unfold assert. rewrite Hassert. unfold bind at 1.
  rewrite (check_loop curve p n s Hp) by (rewrite Z.sub_0_r; lia).
  rewrite Z.sub_0_r. reflexivity.
Qed.

Lemma dump_run curve p n s :
  NDEBUG || (2 <=? n) = true ->
  heap s !! p = Some curve ->
  dump_weight_function p n s
  = (Returned tt, log_all (dump_events curve n) s).
Proof.
  intros Hassert Hp. unfold dump_weight_function. unfold bind at 1.
  unfold assert. rewrite Hassert.
  rewrite (dump_loop curve p n) by
    first [assumption | rewrite Z.sub_0_r; lia].
  rewrite Z.sub_0_r. reflexivity.
Qed.

(** X10.  In a build with assertions, a grid of fewer than two points
    makes both diagnostics abort before anything is sampled or printed,
    whatever the pointer. *)
Theorem diagnostics_abort_below_two p n s :
  NDEBUG = false ->
  n < 2 ->
  check_weight_function p n s = (Aborted, s)
  /\ dump_weight_function p n s = (Aborted, s).
Proof.
  intros Hdebug Hn.
  unfold check_weight_function, dump_weight_function, bind, assert.
  rewrite Hdebug. simpl.
  destruct (Z.leb_spec 2 n) as [Hle|_]; [lia|]. now split.
Qed.

(** X11.  In a build without assertions, a grid of no points ([n <= 0])
    makes the check succeed without a single sample and the dump print
    nothing; the pointer is never dereferenced, so it need not be live. *)
Theorem diagnostics_without_samples p n s :
  NDEBUG = true ->
  n <= 0 ->
  check_weight_function p n s = (Returned true, s)
  /\ dump_weight_function p n s = (Returned tt, s).
Proof.
  intros Hndebug Hn.
  unfold check_weight_function, dump_weight_function, bind, assert.
  rewrite Hndebug. simpl.
  replace (Z.to_nat n) with 0%nat by lia. now split.
Qed.

(** X12.  In a build without assertions, a grid of one point puts that
    point at 0 / 0, which is NaN: the check judges the curve by its
    weight at NaN alone, and the dump prints that one line. *)
Theorem diagnostics_single_sample curve p s :
  NDEBUG = true ->
  heap s !! p = Some curve ->
  grid 1 0 = PrimFloat.nan
  /\ check_weight_function p 1 s
     = (Returned (negb (is_fault (weight curve PrimFloat.nan))), s)
  /\ dump_weight_function p 1 s
     = (Returned tt,
        log (EvCout (dump_line 0 PrimFloat.nan (weight curve PrimFloat.nan)))
          s).
Proof.
  intros Hndebug Hp.
  assert (grid 1 0 = PrimFloat.nan) as Hgrid by (vm_compute; reflexivity).
  split; [exact Hgrid|]. split.
  - rewrite (check_run curve) by (rewrite ?Hndebug; auto).
    unfold fault_count. change (seqZ 0 1) with [0].
    rewrite faults_on_cons, Hgrid.
    now destruct (is_fault (weight curve PrimFloat.nan)).
  - rewrite (dump_run curve) by (rewrite ?Hndebug; auto).
    unfold dump_events. change (seqZ 0 1) with [0]. simpl.
    now rewrite Hgrid.
Qed.

(** X13.  NaN is not a fault: neither [w < 0] nor [w >= 1] holds of it.
    A curve that yields NaN at every grid point passes the check. *)
Theorem nan_passes_the_check curve p n s :
  2 <= n ->
  heap s !! p = Some curve ->
  (forall i, 0 <= i < n -> weight curve (grid n i) = PrimFloat.nan) ->
  check_weight_function p n s = (Returned true, s).
Proof.
  intros Hn Hp Hnan.
  rewrite (check_run curve) by
    first [assumption | apply orb_true_iff; right; apply Z.leb_le; lia].
  do 2 f_equal. apply Z.eqb_eq. unfold fault_count.
  apply faults_on_zero. intros i Hi. apply elem_of_seqZ in Hi.
  rewrite Hnan by lia. reflexivity.
Qed.

(** X14.  Dump and check look at the same samples and do not disturb each
    other: run one after the other, in either order, over the same grid,
    they give the verdict of the check alone and the lines of the dump
    alone, and change nothing else. *)
Theorem dump_and_check_commute curve p n s :
  2 <= n ->
  heap s !! p = Some curve ->
  (dump_weight_function p n ;; check_weight_function p n) s
  = (Returned (fault_count curve n =? 0), log_all (dump_events curve n) s)
  /\ (ok <- check_weight_function p n ;;
      dump_weight_function p n ;;
      ret ok) s
     = (Returned (fault_count curve n =? 0),
        log_all (dump_events curve n) s).
Proof.
  intros Hn Hp.
  assert (NDEBUG || (2 <=? n) = true) as Hassert
    by (apply orb_true_iff; right; apply Z.leb_le; lia).
  split.
  - unfold bind at 1. rewrite (dump_run curve) by assumption.
    now rewrite (check_run curve) by assumption.
  - unfold bind at 1. rewrite (check_run curve) by assumption.
    unfold bind at 1. now rewrite (dump_run curve) by assumption.
Qed.

End ExposureWeightCc.

(** X15.  A built-in name never reaches the dynamic loader: for a name
    that lower-cases to an alias, the call consists of the delete and one
    allocation, with no load, no resolve and no output, and its result is
    the same in every build, with every loader, program name and
    argument list.  A shared object cannot take the place of a built-in
    curve by carrying its name. *)
Theorem built_in_names_ignore_the_build
    command command' have_loader have_loader' loader loader'
    name class arguments arguments' y_optimum width s :
  lookup_alias (enblend.to_lower name) = Some class ->
  slot_ok s ->
  make_weight_function command have_loader loader
    name arguments y_optimum width s
  = make_weight_function command' have_loader' loader'
      name arguments' y_optimum width s
  /\ trace (snd (make_weight_function command have_loader loader
                   name arguments y_optimum width s))
     = (trace s ++ [EvDelete (ExposureWeightFunction s); EvNew (next s)])%list.
Proof.
  intros Halias Hslot.
  rewrite !make_weight_function_eq, Halias by assumption.
  split; [reflexivity|]. unfold new. simpl.
  now rewrite next_after_delete, trace_after_delete, <- app_assoc.
Qed.

End exposure_weight.

(** ** The theorems at concrete inputs *)

Lemma active_state_slot_ok : slot_ok active_state.
Proof. unfold slot_ok. simpl. rewrite lookup_singleton_eq. eauto. Defined.

Lemma active_state_exclusive : exclusive active_state.
Proof. unfold exclusive. simpl. eauto. Defined.

Lemma active_state_ids_fresh : ids_fresh active_state.
Proof.
  intros l [object Hl]. simpl in *.
  apply lookup_singleton_Some in Hl as [<- _]. lia.
Defined.

Lemma C1_witness :
  exposure_weight.make_weight_function "enfuse" true sample_DynamicLoader
    "GAUSS" ["unused"] 0.5 0.25 active_state
  = (Returned 1%nat,
     alloc (Gaussian 0.5 0.25) (after_delete active_state)).
Proof.
  exact (proj1 (exposure_weight.C1_built_in_aliases
                  "enfuse" true sample_DynamicLoader
                  "GAUSS" Gaussian ["unused"] 0.5 0.25 active_state
                  eq_refl active_state_slot_ok)).
Defined.

Lemma C2_witness :
  heap (snd (exposure_weight.make_weight_function "enfuse" true
               sample_DynamicLoader "lorentz" [] 0.5 0.25 active_state))
    !! 0%nat = None.
Proof.
  exact (proj1 (proj2 (exposure_weight.C2_release_before_construction
                         "enfuse" true sample_DynamicLoader
                         "lorentz" [] 0.5 0.25 active_state
                         active_state_exclusive active_state_ids_fresh))
           0%nat eq_refl).
Defined.

Lemma defective_state_curve :
  heap defective_state !! 0%nat
  = Some (DynamicExposureWeight 0.5 0.25 "curves.so" "stub"
            sample_library (constant_function 1.5)).
Proof. simpl. apply lookup_singleton_eq. Defined.

Lemma C3_witness :
  exposure_weight.check_weight_function false sample_weight 0 5
    defective_state
  = (Returned false, defective_state).
Proof.
  refine (proj2 (proj2 (proj2 (proj2 (proj2 (proj2
            (exposure_weight.C3_check_counts_faults false sample_weight
               _ 0%nat 5 defective_state _ _ defective_state_curve))))))
            2 _ eq_refl); unfold INT_MAX; lia.
Defined.



Lemma C5_witness :
  exposure_weight.make_weight_function "enfuse" true sample_DynamicLoader
    "foo" [] 0.5 0.25 active_state
  = (Exited 1,
     log (EvExit 1)
       (log (EvCerr (exposure_weight.unknown_text "enfuse" "foo"))
          (after_delete active_state))).
Proof.
  exact (proj1 (exposure_weight.C5_dynamic_path_without_symbol
                  "enfuse" true sample_DynamicLoader "foo" 0.5 0.25
                  active_state eq_refl eq_refl active_state_slot_ok)).
Defined.

(** C5 as the specification words it does not hold: with a loader in the
    build, the unknown name "foo" and no arguments, the call exits with
    status 1, but all it writes to the error stream is that "foo" is an
    unknown built-in exposure weight function; nothing is said about a
    symbol name. *)
Lemma C5_counterexample :
  let r := exposure_weight.make_weight_function "enfuse" true
             sample_DynamicLoader "foo" [] 0.5 0.25 empty_state in
  fst r = Exited 1
  /\ cerr_text (trace (snd r))
     = [ "enfuse: unknown built-in exposure weight function "
         +:+ dquote +:+ "foo" +:+ dquote +:+ endl ]
  /\ ~ reports_missing_symbol (snd r).
Proof.
  split; [reflexivity|]. split; [reflexivity|].
  intros (text & Hin & Hsymbol).
  apply list_elem_of_singleton in Hin. subst text.
  vm_compute in Hsymbol. discriminate Hsymbol.
Qed.

Lemma C6_witness :
  exposure_weight.make_weight_function "enfuse" false sample_DynamicLoader
    "foo" [] 0.5 0.25 active_state
  = (Exited 1,
     log (EvExit 1)
       (log (EvCerr (exposure_weight.unknown_no_loader_text "enfuse" "foo"))
          (after_delete active_state))).
Proof.
  exact (proj1 (exposure_weight.C6_unknown_without_loader
                  "enfuse" false sample_DynamicLoader "foo" [] 0.5 0.25
                  active_state eq_refl eq_refl active_state_slot_ok)).
Defined.

Lemma C7_witness :
  exposure_weight.make_weight_function "enfuse" true sample_DynamicLoader
    "curves.so" ["refusing"; "steep"] 0.5 0.25 active_state
  = (Exited 1,
     log (EvExit 1)
       (log (EvCerr (exposure_weight.raised_text "enfuse"
                       "refusing" "curves.so" "bad width"))
          (exposure_weight.entering_initialize "curves.so" "refusing"
             sample_library refusing_function 0.5 0.25 ["steep"]
             (after_delete active_state)))).
Proof.
  exact (proj1 (exposure_weight.C7_initialize_error_is_fatal
                  "enfuse" true sample_DynamicLoader
                  "curves.so" "refusing" ["steep"] 0.5 0.25 active_state
                  sample_library refusing_function "bad width"
                  eq_refl eq_refl active_state_slot_ok
                  eq_refl eq_refl eq_refl)).
Defined.

Lemma C8_witness :
  trace (exposure_weight.entering_initialize "curves.so" "accepting"
           sample_library accepting_function 0.5 0.25 ["a"; "b"]
           (after_delete active_state))
  = [ EvDelete (Some 0%nat);
      EvLoad "curves.so";
      EvResolve "curves.so" "accepting";
      EvNew 1;
      EvCout ("+ DynamicExposureWeight::initialize" +:+ endl);
      EvInitialize "accepting" 0.5 0.25 ["a"; "b"] ].
Proof.
  exact (proj1 (exposure_weight.C8_symbol_then_arguments
                  "enfuse" true sample_DynamicLoader
                  "curves.so" "accepting" ["a"; "b"] 0.5 0.25 active_state
                  sample_library accepting_function
                  eq_refl eq_refl active_state_slot_ok eq_refl eq_refl)).
Defined.

Lemma C10_witness :
  heap (snd (exposure_weight.make_weight_function "enfuse" true
               sample_DynamicLoader "curves.so" ["refusing"] 0.5 0.25
               active_state))
    !! 0%nat = None.
Proof.
  exact (proj1 (proj2 (proj2
           (exposure_weight.C10_replacement_not_atomic
              "enfuse" true sample_DynamicLoader
              "curves.so" ["refusing"] 0.5 0.25 active_state 1
              active_state_slot_ok active_state_ids_fresh eq_refl)))
           0%nat eq_refl).
Defined.

(** ** Two runs, step by step *)

(** Two calls in a row, the caller storing the first result in the global
    pointer: the Gaussian of the first call is deleted by the second, and
    only the bi-square curve is left. *)
Example second_call_releases_first :
  let r1 := exposure_weight.make_weight_function "enfuse" false
              sample_DynamicLoader "Gauss" [] 0.5 0.25 empty_state in
  let r2 := exposure_weight.make_weight_function "enfuse" false
              sample_DynamicLoader "BI-SQUARE" [] 0.75 0.125
              (install 0%nat (snd r1)) in
  fst r1 = Returned 0%nat
  /\ fst r2 = Returned 1%nat
  /\ trace (snd r2)
     = [EvDelete None; EvNew 0; EvDelete (Some 0%nat); EvNew 1]
  /\ map_to_list (heap (snd r2)) = [(1%nat, Bisquare 0.75 0.125)].
Proof. vm_compute. repeat split. Qed.

(** A curve that is 0.5 everywhere passes the check; the dump of two
    samples puts them at 0 and 1. *)
Example check_and_dump_constant_half :
  exposure_weight.check_weight_function false sample_weight 0 11 active_state
  = (Returned true, active_state)
  /\ exposure_weight.grid 2 <$> seqZ 0 2 = [0; 1]%float
  /\ exposure_weight.dump_events sample_weight sample_show_double
       (Gaussian 0.5 0.25) 2
     = [ EvCout ("0 # #" +:+ endl); EvCout ("1 # #" +:+ endl) ].
Proof. vm_compute. repeat split. Qed.

(** ** The further properties at concrete inputs *)


Lemma crowded_state_slot_ok : slot_ok crowded_state.
Proof.
  unfold slot_ok. simpl.
  rewrite lookup_insert_ne, lookup_singleton_eq by lia. eauto.
Defined.

Lemma crowded_state_ids_fresh : ids_fresh crowded_state.
Proof.
  intros l [object Hl]. simpl in *.
  destruct (decide (l = 1%nat)) as [->|Hne1]; [lia|].
  rewrite lookup_insert_ne in Hl by congruence.
  apply lookup_singleton_Some in Hl as [<- _]. lia.
Defined.

Lemma crowded_state_neighbour :
  heap crowded_state !! 1%nat = Some (Lorentzian 0.5 0.25).
Proof. simpl. apply lookup_insert_eq. Defined.

Lemma nan_state_curve :
  heap nan_state !! 0%nat
  = Some (DynamicExposureWeight 0.5 0.25 "extra.so" "nan"
            second_library (constant_function PrimFloat.nan)).
Proof. simpl. apply lookup_singleton_eq. Defined.

Lemma factory_outcome_kinds_witness :
  match fst (exposure_weight.make_weight_function "enfuse" true
               second_DynamicLoader "missing.so" ["curve"] 0.5 0.25
               active_state) with
  | Returned q => q = next active_state
  | Exited status => status = 1
  | Thrown e => exists what, e = other_exception what
  | Aborted => False
  | Undefined => False
  end.
Proof.
  exact (exposure_weight.factory_outcome_kinds "enfuse" true
           second_DynamicLoader "missing.so" ["curve"] 0.5 0.25
           active_state active_state_slot_ok).
Defined.

Lemma escaping_exception_is_silent_witness :
  heap (snd (exposure_weight.make_weight_function "enfuse" true
               second_DynamicLoader "missing.so" ["curve"] 0.5 0.25
               active_state))
    !! 0%nat = None.
Proof.
  exact (proj2 (proj2 (proj2 (proj2 (proj2
           (exposure_weight.escaping_exception_is_silent "enfuse" true
              second_DynamicLoader "missing.so" ["curve"] 0.5 0.25
              active_state (other_exception "cannot open shared object")
              active_state_slot_ok active_state_ids_fresh eq_refl)))))
           0%nat eq_refl).
Defined.

Lemma wrapper_outlives_failed_initialize_witness :
  heap (snd (exposure_weight.make_weight_function "enfuse" true
               second_DynamicLoader "extra.so" ["constant"] 0.5 0.25
               active_state))
    !! 1%nat
  = Some (DynamicExposureWeight 0.5 0.25 "extra.so" "constant"
            second_library (constant_function 0.5)).
Proof.
  exact (proj1
           (exposure_weight.wrapper_outlives_failed_initialize "enfuse" true
              second_DynamicLoader "extra.so" "constant" [] 0.5 0.25
              active_state second_library (constant_function 0.5)
              (other_exception "initialized twice")
              eq_refl eq_refl active_state_slot_ok
              eq_refl eq_refl eq_refl)).
Defined.

Lemma construction_error_is_reported_witness :
  fst (exposure_weight.make_weight_function "enfuse" true
         second_DynamicLoader "broken.so" ["curve"] 0.5 0.25 active_state)
  = Exited 1.
Proof.
  exact (proj1
           (exposure_weight.construction_error_is_reported "enfuse" true
              second_DynamicLoader "broken.so" "curve" [] 0.5 0.25
              active_state "wrong interface version"
              eq_refl eq_refl active_state_slot_ok (or_introl eq_refl))).
Defined.

Lemma dynamic_success_returns_wrapper_witness :
  heap (snd (exposure_weight.make_weight_function "enfuse" true
               second_DynamicLoader "extra.so" ["accepting"; "steep"]
               0.75 0.125 active_state))
    !! 1%nat
  = Some (DynamicExposureWeight 0.5 0.25 "extra.so" "accepting"
            second_library (constant_function 0.5)).
Proof.
  exact (proj1 (proj2
           (exposure_weight.dynamic_success_returns_wrapper "enfuse" true
              second_DynamicLoader sample_weight
              "extra.so" "accepting" ["steep"] 0.75 0.125
              active_state second_library accepting_function
              (constant_function 0.5)
              eq_refl eq_refl active_state_slot_ok
              eq_refl eq_refl eq_refl))).
Defined.

Lemma returned_pointer_is_fresh_witness :
  is_Some
    (heap (snd (exposure_weight.make_weight_function "enfuse" false
                  sample_DynamicLoader "Lorentzian" [] 0.5 0.25
                  active_state))
       !! 1%nat).
Proof.
  exact (proj1
           (exposure_weight.returned_pointer_is_fresh "enfuse" false
              sample_DynamicLoader "Lorentzian" [] 0.5 0.25
              active_state 1%nat active_state_slot_ok eq_refl)).
Defined.

Lemma other_objects_stay_alive_witness :
  heap (snd (exposure_weight.make_weight_function "enfuse" false
               sample_DynamicLoader "no such curve" [] 0.5 0.25
               crowded_state))
    !! 1%nat
  = Some (Lorentzian 0.5 0.25).
Proof.
  refine (proj2
            (exposure_weight.other_objects_stay_alive "enfuse" false
               sample_DynamicLoader "no such curve" [] 0.5 0.25
               crowded_state 1%nat (Lorentzian 0.5 0.25)
               crowded_state_slot_ok crowded_state_ids_fresh
               crowded_state_neighbour _) eq_refl).
  simpl. discriminate.
Defined.

Lemma second_call_on_stale_pointer_witness :
  exposure_weight.make_weight_function "enfuse" false sample_DynamicLoader
    "bisquare" [] 0.5 0.25
    (snd (exposure_weight.make_weight_function "enfuse" false
            sample_DynamicLoader "gauss" [] 0.5 0.25 active_state))
  = (Undefined,
     snd (exposure_weight.make_weight_function "enfuse" false
            sample_DynamicLoader "gauss" [] 0.5 0.25 active_state)).
Proof.
  exact (proj2
           (exposure_weight.second_call_on_stale_pointer "enfuse" false
              sample_DynamicLoader "gauss" [] 0.5 0.25 active_state 0%nat
              "bisquare" [] 0.5 0.25
              active_state_slot_ok active_state_ids_fresh eq_refl)).
Defined.


Lemma diagnostics_abort_below_two_witness :
  exposure_weight.check_weight_function false sample_weight 0 1 active_state
  = (Aborted, active_state).
Proof.
  refine (proj1
            (exposure_weight.diagnostics_abort_below_two false sample_weight
               sample_show_double 0%nat 1 active_state eq_refl _)).
  lia.
Defined.

Lemma diagnostics_without_samples_witness :
  exposure_weight.check_weight_function true sample_weight 7 0 dangling_state
  = (Returned true, dangling_state).
Proof.
  refine (proj1
            (exposure_weight.diagnostics_without_samples true sample_weight
               sample_show_double 7%nat 0 dangling_state eq_refl _)).
  lia.
Defined.

Lemma diagnostics_single_sample_witness :
  exposure_weight.check_weight_function true sample_weight 0 1 defective_state
  = (Returned false, defective_state).
Proof.
  exact (proj1 (proj2
           (exposure_weight.diagnostics_single_sample true sample_weight
              sample_show_double _ 0%nat defective_state
              eq_refl defective_state_curve))).
Defined.

Lemma nan_passes_the_check_witness :
  exposure_weight.check_weight_function false sample_weight 0 5 nan_state
  = (Returned true, nan_state).
Proof.
  refine (exposure_weight.nan_passes_the_check false sample_weight
            _ 0%nat 5 nan_state _ nan_state_curve _).
  - lia.
  - intros i Hi. reflexivity.
Defined.

Lemma dump_and_check_commute_witness :
  bind (exposure_weight.dump_weight_function false sample_weight
          sample_show_double 0 5)
    (fun _ => exposure_weight.check_weight_function false sample_weight 0 5)
    defective_state
  = (Returned false,
     log_all
       (exposure_weight.dump_events sample_weight sample_show_double
          (DynamicExposureWeight 0.5 0.25 "curves.so" "stub"
             sample_library (constant_function 1.5)) 5)
       defective_state).
Proof.
  refine (proj1
            (exposure_weight.dump_and_check_commute false sample_weight
               sample_show_double _ 0%nat 5 defective_state
               _ defective_state_curve)).
  lia.
Defined.

Lemma built_in_names_ignore_the_build_witness :
  exposure_weight.make_weight_function "enfuse" false sample_DynamicLoader
    "Full-Sine" [] 0.5 0.25 active_state
  = exposure_weight.make_weight_function "enblend" true second_DynamicLoader
      "Full-Sine" ["full-sine"; "steep"] 0.5 0.25 active_state.
Proof.
  exact (proj1
           (exposure_weight.built_in_names_ignore_the_build
              "enfuse" "enblend" false true
              sample_DynamicLoader second_DynamicLoader
              "Full-Sine" FullSinusodial [] ["full-sine"; "steep"]
              0.5 0.25 active_state eq_refl active_state_slot_ok)).
Defined.
